(** * peers_checker.py: probe, filter and rank the peers of a node network

    A shallow embedding of [src/peers_checker.py] and the properties of its
    probe / filter / rank pipeline.

    Conventions of the embedding:
    - Python [int] is [Z]; a Python [str] is a [string] whose characters are
      code points below 256.
    - [int] of a text is CPython's: its own white space around the literal
      and no more than 4300 digits.  The integers the script prints were
      read by [int] or come from the peer's answer, and are within that
      limit.
    - A latency is the float [(end_time - start_time) * 1000].  Every finite
      float is a rational and Python compares a float with an [int] exactly,
      so a latency is a [Q]; [int(latency)] truncates toward zero.
    - The network is an oracle ([Net]): what a TCP connect and an HTTP status
      query observe.  The file system is a finite map from paths to contents.
    - [as_completed] yields the futures in the order the tasks finish; that
      order is a parameter of [check_nodes].
    - A function that may raise returns a [result]; the collector loop and
      the script run in a small state-and-exception monad. *)

From Stdlib Require Import Ascii QArith.
From stdpp Require Import base option list strings pretty gmap sorting.

Local Open Scope string_scope.
Local Open Scope list_scope.
Local Open Scope Z_scope.

(** ** Python built-ins used by the script *)

Module Py.

(** The exception classes that occur; all are subclasses of [Exception]. *)
Inductive exception :=
| ValueError | TypeError | KeyError | IndexError | OverflowError
| RequestException | IOError.

Inductive result (A : Type) :=
| Ok (a : A)
| Raise (e : exception).
Arguments Ok {A} a.
Arguments Raise {A} e.

#[global] Instance exception_eq_dec : EqDecision exception.
Proof. solve_decision. Defined.

Definition ascii_eqb (a b : ascii) : bool := Ascii.eqb a b.

(** [s.split(sep)] for a separator of one character. *)
Fixpoint split (sep : ascii) (s : string) : list string :=
  match s with
  | EmptyString => [EmptyString]
  | String c s' =>
      if ascii_eqb c sep then EmptyString :: split sep s'
      else match split sep s' with
           | [] => [String c EmptyString]
           | w :: ws => String c w :: ws
           end
  end.

(** [sep.join(l)]. *)
Fixpoint join (sep : string) (l : list string) : string :=
  match l with
  | [] => EmptyString
  | [x] => x
  | x :: l' => x +:+ sep +:+ join sep l'
  end.

(** [str.isspace] on one code point below 256: tab, newline, vertical tab,
    form feed, carriage return, the separators 28..31, space, NEL and the
    no-break space. *)
Definition isspace (c : ascii) : bool :=
  let n := nat_of_ascii c in
  ((9 <=? n) && (n <=? 13))%nat || ((28 <=? n) && (n <=? 32))%nat
  || (n =? 133)%nat || (n =? 160)%nat.

Fixpoint lstrip (s : string) : string :=
  match s with
  | EmptyString => EmptyString
  | String c s' => if isspace c then lstrip s' else s
  end.

Fixpoint rstrip (s : string) : string :=
  match s with
  | EmptyString => EmptyString
  | String c s' =>
      match rstrip s' with
      | EmptyString => if isspace c then EmptyString else String c EmptyString
      | r => String c r
      end
  end.

(** [s.strip()]. *)
Definition strip (s : string) : string := rstrip (lstrip s).

Definition digit (c : ascii) : option Z :=
  let n := nat_of_ascii c in
  if ((48 <=? n) && (n <=? 57))%nat then Some (Z.of_nat n - 48) else None.

(** The digits of a decimal literal, most significant first.  [prev] tells
    whether the previous character was a digit: an underscore is accepted
    only after a digit, and the literal must end in a digit. *)
Fixpoint digits (prev : bool) (acc : Z) (s : string) : option Z :=
  match s with
  | EmptyString => if prev then Some acc else None
  | String c s' =>
      match digit c with
      | Some d => digits true (10 * acc + d) s'
      | None =>
          if ascii_eqb c "_" && prev then digits false acc s' else None
      end
  end.

(** The white space [int] drops around a literal.  It is not that of
    [str.strip]: a code point below 127 counts when it is white space of the
    C locale (tab to carriage return, and the space), so the separators
    28..31 do not; above, NEL and the no-break space count. *)
Definition int_space (c : ascii) : bool :=
  let n := nat_of_ascii c in
  ((9 <=? n) && (n <=? 13))%nat || (n =? 32)%nat
  || (n =? 133)%nat || (n =? 160)%nat.

Fixpoint int_lstrip (s : string) : string :=
  match s with
  | EmptyString => EmptyString
  | String c s' => if int_space c then int_lstrip s' else s
  end.

Fixpoint int_rstrip (s : string) : string :=
  match s with
  | EmptyString => EmptyString
  | String c s' =>
      match int_rstrip s' with
      | EmptyString =>
          if int_space c then EmptyString else String c EmptyString
      | r => String c r
      end
  end.

Definition int_strip (s : string) : string := int_rstrip (int_lstrip s).

(** [sys.int_max_str_digits] as CPython sets it: a literal of more digits
    is refused with [ValueError]. *)
Definition int_max_str_digits : Z := 4300.

(** The number of digits of a literal; underscores do not count. *)
Fixpoint digit_count (s : string) : Z :=
  match s with
  | EmptyString => 0
  | String c s' => (if digit c is Some _ then 1 else 0) + digit_count s'
  end.

(** The unsigned literal: digits, no more than the limit. *)
Definition literal (s : string) : option Z :=
  if int_max_str_digits <? digit_count s then None else digits false 0 s.

(** [int(s)] in base ten: surrounding white space is dropped, one sign is
    allowed, then the literal; [None] stands for [ValueError]. *)
Definition int (s : string) : option Z :=
  match int_strip s with
  | String "-" s' => Z.opp <$> literal s'
  | String "+" s' => literal s'
  | s' => literal s'
  end.

(** The line feed. *)
Definition newline : string := String (ascii_of_nat 10) EmptyString.

(** [str(n)] and the [{n}] of an f-string, for an integer within the
    digits limit, as a port read by [int] is. *)
Definition str (n : Z) : string := pretty n.

(** [int(x)] for a float: truncation toward zero. *)
Definition int_of_float (x : Q) : Z := Z.quot (Qnum x) (Zpos (Qden x)).

(** [x <= n] for a float [x] and an integer [n]. *)
Definition float_le_int (x : Q) (n : Z) : bool := Qle_bool x (inject_Z n).

Definition lower_char (c : ascii) : ascii :=
  let n := nat_of_ascii c in
  if ((65 <=? n) && (n <=? 90))%nat then ascii_of_nat (n + 32) else c.

(** [s.lower()] on the ASCII letters; no other code point below 256 becomes
    an ASCII letter, so comparisons with an ASCII word are not affected. *)
Fixpoint lower (s : string) : string :=
  match s with
  | EmptyString => EmptyString
  | String c s' => String (lower_char c) (lower s')
  end.

Fixpoint startswith (p s : string) : bool :=
  match p, s with
  | EmptyString, _ => true
  | String a p', String b s' => ascii_eqb a b && startswith p' s'
  | String _ _, EmptyString => false
  end.

(** [old in s]. *)
Fixpoint contains (old s : string) : bool :=
  startswith old s ||
  match s with
  | EmptyString => false
  | String _ s' => contains old s'
  end.

(** [s.replace(old, new)] for a non-empty [old]: the occurrences are
    replaced from left to right without overlap.  [skip] counts the
    characters of a matched occurrence still to be dropped. *)
Fixpoint replace_from (old new : string) (skip : nat) (s : string) : string :=
  match s with
  | EmptyString => EmptyString
  | String c s' =>
      match skip with
      | S k => replace_from old new k s'
      | O =>
          if startswith old s
          then new +:+ replace_from old new (String.length old - 1) s'
          else String c (replace_from old new 0 s')
      end
  end.

Definition replace (old new s : string) : string := replace_from old new 0 s.

(** [l[:n]]: the first [n] elements, or all but the last [-n] when [n] is
    negative. *)
Definition slice_to {A} (l : list A) (n : Z) : list A :=
  if n <? 0 then take (length l - Z.to_nat (- n))%nat l else take (Z.to_nat n) l.

(** [l.sort(key=key, reverse=True)]: a stable sort into descending order
    of the key.  The list is built from its end: an element is inserted
    in front of the first element whose key is not greater than its own,
    hence in front of the later elements of equal key. *)
Fixpoint insert_desc {A} (key : A → Z) (x : A) (l : list A) : list A :=
  match l with
  | [] => [x]
  | y :: l' => if key x <? key y then y :: insert_desc key x l' else x :: l
  end.

Fixpoint sort_desc {A} (key : A → Z) (l : list A) : list A :=
  match l with
  | [] => []
  | x :: l' => insert_desc key x (sort_desc key l')
  end.

End Py.

(** ** The data of the script *)

Import Py.

#[global] Instance result_ret : MRet result := λ A a, Ok a.
#[global] Instance result_bind : MBind result := λ A B f m,
  match m with
  | Ok a => f a
  | Raise e => Raise e
  end.

#[global] Instance result_fmap : FMap result := λ A B f m,
  match m with
  | Ok a => Ok (f a)
  | Raise e => Raise e
  end.

(** The dictionary [moniker_info] built by [process_line]. *)
Record moniker_info := {
  moniker : string;
  node_id : string;
  ip : string;
  port : Z;
  full_peer : string;
  latency : Z
}.

(** The tuple [(line, block_height, moniker_info)] returned by
    [process_line] and stored in [successful_connections]. *)
Definition connection : Type := string * Z * moniker_info.

Definition conn_line (c : connection) : string := c.1.1.
Definition conn_height (c : connection) : Z := c.1.2.
Definition conn_info (c : connection) : moniker_info := c.2.

(** ** The network as the script observes it *)

(** [socket.create_connection((ip, port), timeout)]: the connection opens
    after [ms] milliseconds, or fails with [socket.timeout] / [socket.error],
    or raises something else (a port outside 0..65535 gives
    [OverflowError]).  A connection opens only to a port the operating
    system knows, so the f-strings that print [port] and [port + 1] after
    it did are within the digits limit of [str]. *)
Inductive connect_outcome :=
| Connected (ms : Q)
| SocketError
| ConnectRaises (e : exception).

(** [requests.get(url, timeout=...)] followed by the reading of the fields
    the caller wants from the JSON body: the request fails with a
    [RequestException], or a response arrives with a status code and a body
    from which the fields are read, or reading them raises. *)
Inductive http_outcome (A : Type) :=
| RequestFails
| Response (status_code : Z) (fields : result A).
Arguments RequestFails {A}.
Arguments Response {A} status_code fields.

Record Net := {
  create_connection : string → Z → connect_outcome;
  (** [result.sync_info.latest_block_height] as an [int], with
      [result.node_info.moniker] and [result.node_info.id]; the height is
      what [int] gave, a failure of [int] is a failure to read the fields. *)
  get_status : string → http_outcome (Z * string * string)
}.

(** ** The probes *)

Definition check_connection (net : Net) (ip : string) (port : Z)
  : result (bool * option Q) :=
  match create_connection net ip port with
  | Connected ms => Ok (true, Some ms)
  | SocketError => Ok (false, None)
  | ConnectRaises e => Raise e
  end.

(** A [try] block whose handler is [except requests.RequestException] and
    which falls through to [fallback]. *)
Definition except_RequestException {A} (body : result (option A)) (fallback : A)
  : result A :=
  match body with
  | Ok (Some a) => Ok a
  | Ok None => Ok fallback
  | Raise RequestException => Ok fallback
  | Raise e => Raise e
  end.

(** The body of the [try]: [Ok None] when the [if] on the status code is not
    taken. *)
Definition on_status_200 {A} (r : http_outcome A) : result (option A) :=
  match r with
  | RequestFails => Raise RequestException
  | Response status_code fields =>
      if status_code =? 200 then Some <$> fields else Ok None
  end.

Definition status_url (ip : string) (rpc_port : Z) : string :=
  "http://" +:+ ip +:+ ":" +:+ str rpc_port +:+ "/status".

Definition get_latest_block_height (net : Net) (ip : string) (rpc_port : Z)
  : result (option Z * string * string) :=
  except_RequestException
    (fmap (M:=option)
       (λ '(latest_block_height, moniker, node_id),
          (Some latest_block_height, moniker, node_id))
     <$> on_status_200 (get_status net (status_url ip rpc_port)))
    (None, EmptyString, EmptyString).

(** ** Evaluation of one descriptor *)

(** [success and (max_latency is None or latency <= max_latency)]; comparing
    [None] with an integer raises. *)
Definition latency_accepted (success : bool) (latency : option Q)
    (max_latency : option Z) : result bool :=
  if success then
    match max_latency, latency with
    | None, _ => Ok true
    | Some m, Some l => Ok (float_le_int l m)
    | Some _, None => Raise TypeError
    end
  else Ok false.

(** [int(latency)]. *)
Definition int_latency (latency : option Q) : result Z :=
  match latency with
  | Some l => Ok (int_of_float l)
  | None => Raise TypeError
  end.

(** [int(ip_port[1])]. *)
Definition int_port (s : string) : result Z :=
  match int s with
  | Some n => Ok n
  | None => Raise ValueError
  end.

Definition process_line (net : Net) (line : string) (expected_height : Z)
    (max_latency : option Z) (accepted_height_difference : Z)
  : result (option connection) :=
  match split "@" line with
  | [_; hostport] =>
      match split ":" hostport with
      | [ip; port_s] =>
          port ← int_port port_s;
          '(success, latency) ← check_connection net ip port;
          accepted ← latency_accepted success latency max_latency;
          if accepted : bool then
            '(block_height, moniker, node_id) ←
              get_latest_block_height net ip (port + 1);
            match block_height with
            | Some block_height =>
                if Z.abs (block_height - expected_height)
                   <=? accepted_height_difference
                then
                  ms ← int_latency latency;
                  Ok (Some (line, block_height,
                            {| moniker := moniker;
                               node_id := node_id;
                               ip := ip;
                               port := port;
                               full_peer :=
                                 node_id +:+ "@" +:+ ip +:+ ":" +:+ str port;
                               latency := ms |}))
                else Ok None
            | None => Ok None
            end
          else Ok None
      | _ => Ok None
      end
  | _ => Ok None
  end.

(** A network in which the peer at [10.0.0.1:26656] answers after 20.5 ms
    and reports height 1003, the peer at [10.0.0.2:26656] answers after 75 ms
    and reports height 990, and nothing else is reachable. *)
Definition demo_net : Net := {|
  create_connection ip port :=
    if decide (ip = "10.0.0.1" ∧ port = 26656) then Connected (41 # 2)
    else if decide (ip = "10.0.0.2" ∧ port = 26656) then Connected (75 # 1)
    else if decide (port < 0 ∨ 65535 < port) then ConnectRaises OverflowError
    else SocketError;
  get_status url :=
    if decide (url = "http://10.0.0.1:26657/status")
    then Response 200 (Ok (1003, "alice", "aa11"))
    else if decide (url = "http://10.0.0.2:26657/status")
    then Response 200 (Ok (990, "bob", "bb22"))
    else RequestFails
|}.

(** ** The state of a run and its monad *)

(** What a file written by the script holds: the text written to it, or the
    document handed to [json.dump]. *)
Inductive content :=
| Text (s : string)
| Json (doc : list moniker_info).

(** The records the main thread hands to [logging].  The one record of
    [process_line], emitted by a worker thread when it returns a connection,
    interleaves with them in no fixed order and is left out. *)
Inductive message :=
| ExpectedHeightFetched (rpc_url : string) (height : Z)
| FailedExpectedHeight (rpc_url : string)
| FailedPeers (rpc_url : string)
| FailedReadFile (file_path : string)
| Processed (processed_count total_lines : nat)
| ErrorProcessingLine (line : string) (e : exception)
| ConnectionSaved (line : string) (height latency : Z)
| SavedTop (top_n : Z) (output_filename : string)
| SavedIds (ids_only_filename : string)
| SavedMoniker (output_filename : string)
| ExitNoExpectedHeight
| ExpectedHeightIs (height : Z)
| ExitNoPeersFromFile (file_path : string)
| ExitNoPeersFromRpc (rpc_url : string)
| ScriptRunTime
| TotalMatched (matched_nodes : nat)
| TotalSaved (saved_nodes : nat)
| PeersFetchedFrom (peers_source : string)
| Completed
| ErrorOccurred (e : exception).

Inductive level := INFO | ERROR.

(** The mutable state of a run: the files written, the log, and the objects
    [check_nodes] creates and returns by reference: the list
    [successful_connections] (called [connections] by its later users), the
    list [moniker_info], and the counter [processed_count]. *)
Record machine := {
  files : gmap string content;
  log : list (level * message);
  successful_connections : list connection;
  moniker_info_list : list moniker_info;
  processed_count : nat
}.

(** What can leave a block: an [Exception], or the [SystemExit] of
    [sys.exit], which [except Exception] does not catch. *)
Inductive raised :=
| Exc (e : exception)
| SystemExit (code : Z).

Definition M (A : Type) : Type := machine → (A + raised) * machine.

#[global] Instance M_ret : MRet M := λ A a m, (inl a, m).
#[global] Instance M_bind : MBind M := λ A B f c m,
  match c m with
  | (inl a, m') => f a m'
  | (inr r, m') => (inr r, m')
  end.

Definition raise {A} (r : raised) : M A := λ m, (inr r, m).

Definition of_result {A} (r : result A) : M A :=
  match r with
  | Ok a => mret a
  | Raise e => raise (Exc e)
  end.

Definition gets {A} (f : machine → A) : M A := λ m, (inl (f m), m).
Definition modify (f : machine → machine) : M unit := λ m, (inl (), f m).

(** [try: body except Exception as e: handler e].  The handler starts from
    the state the body had reached. *)
Definition try_except {A} (body : M A) (handler : exception → M A) : M A :=
  λ m,
    match body m with
    | (inr (Exc e), m') => handler e m'
    | other => other
    end.

Definition sys_exit {A} (code : Z) : M A := raise (SystemExit code).

(** Assignments to the components of the state. *)
Definition upd_files (f : gmap string content → gmap string content)
    (m : machine) : machine :=
  {| files := f (files m); log := log m;
     successful_connections := successful_connections m;
     moniker_info_list := moniker_info_list m;
     processed_count := processed_count m |}.

Definition upd_log (f : list (level * message) → list (level * message))
    (m : machine) : machine :=
  {| files := files m; log := f (log m);
     successful_connections := successful_connections m;
     moniker_info_list := moniker_info_list m;
     processed_count := processed_count m |}.

Definition upd_successful_connections
    (f : list connection → list connection) (m : machine) : machine :=
  {| files := files m; log := log m;
     successful_connections := f (successful_connections m);
     moniker_info_list := moniker_info_list m;
     processed_count := processed_count m |}.

Definition upd_moniker_info_list
    (f : list moniker_info → list moniker_info) (m : machine) : machine :=
  {| files := files m; log := log m;
     successful_connections := successful_connections m;
     moniker_info_list := f (moniker_info_list m);
     processed_count := processed_count m |}.

Definition upd_processed_count (f : nat → nat) (m : machine) : machine :=
  {| files := files m; log := log m;
     successful_connections := successful_connections m;
     moniker_info_list := moniker_info_list m;
     processed_count := f (processed_count m) |}.

Definition logging (lv : level) (msg : message) : M unit :=
  modify (upd_log (λ l, l ++ [(lv, msg)])).

Definition set_files (f : gmap string content → gmap string content) : M unit :=
  modify (upd_files f).

Definition set_successful_connections
    (f : list connection → list connection) : M unit :=
  modify (upd_successful_connections f).

Definition set_moniker_info_list
    (f : list moniker_info → list moniker_info) : M unit :=
  modify (upd_moniker_info_list f).

Definition set_processed_count (f : nat → nat) : M unit :=
  modify (upd_processed_count f).

(** [open(path, 'w')] empties the file; [file.write(s)] appends to it. *)
Definition open_w (path : string) : M unit :=
  set_files (λ fs, <[path := Text EmptyString]> fs).

Definition file_write (path : string) (s : string) : M unit :=
  set_files (λ fs,
    match fs !! path with
    | Some (Text old) => <[path := Text (old +:+ s)]> fs
    | _ => <[path := Text s]> fs
    end).

(** A [for] loop. *)
Fixpoint for_each {A} (l : list A) (body : A → M unit) : M unit :=
  match l with
  | [] => mret ()
  | x :: l' => body x;; for_each l' body
  end.

(** ** The scheduler *)

(** [future_to_ip_port]: the i-th future is the task of the i-th line, run
    against the network as that task observes it; with the future goes the
    outcome its [result()] will give. *)
Definition submit_all (nets : nat → Net) (lines : list string)
    (expected_height : Z) (max_latency : option Z)
    (accepted_height_difference : Z)
  : list (string * result (option connection)) :=
  imap (λ i line,
          (line, process_line (nets i) line expected_height max_latency
                   accepted_height_difference)) lines.

(** The body of the loop over [as_completed(future_to_ip_port)]. *)
Definition collect_future
    (future_to_ip_port : list (string * result (option connection)))
    (total_lines : nat) (future : nat) : M unit :=
  match future_to_ip_port !! future with
  | None => mret ()
  | Some (line, outcome) =>
      try_except
        (result ← of_result outcome;
         match result with
         | Some r =>
             set_successful_connections (λ l, l ++ [(r.1.1, r.1.2, r.2)]);;
             set_moniker_info_list (λ l, l ++ [r.2])
         | None => mret ()
         end;;
         set_processed_count S;;
         n ← gets processed_count;
         logging INFO (Processed n total_lines))
        (λ e, logging ERROR (ErrorProcessingLine line e))
  end.

(** [order] is the order in which [as_completed] yields the futures, as
    indices into [lines].  The two lists and the counter live in the state;
    the function returns references to the lists. *)
Definition check_nodes (nets : nat → Net) (order : list nat)
    (lines : list string) (expected_height : Z) (max_latency : option Z)
    (accepted_height_difference : Z) : M unit :=
  set_successful_connections (λ _, []);;
  set_moniker_info_list (λ _, []);;
  let total_lines := length lines in
  let future_to_ip_port :=
    submit_all nets lines expected_height max_latency
      accepted_height_difference in
  set_processed_count (λ _, 0%nat);;
  for_each order (collect_future future_to_ip_port total_lines).

(** ** The writers *)

(** The body of [for conn in connections] in [save_ids_only]; [first_entry]
    is the flag of the source. *)
Fixpoint write_ids (path : string) (first_entry : bool)
    (connections : list connection) : M unit :=
  match connections with
  | [] => mret ()
  | conn :: rest =>
      (if first_entry then file_write path (node_id (conn_info conn))
       else file_write path ("," +:+ node_id (conn_info conn)));;
      write_ids path false rest
  end.

Definition ids_only_filename (output_filename : string) : string :=
  replace ".txt" "_ids_only.txt" output_filename.

Definition save_ids_only (connections : list connection)
    (output_filename : string) : M unit :=
  let ids_only_filename := ids_only_filename output_filename in
  open_w ids_only_filename;;
  write_ids ids_only_filename true connections;;
  logging INFO (SavedIds ids_only_filename).

(** The body of [for conn in top_connections] in [save_top_connections]. *)
Fixpoint write_connections (path : string) (first_entry : bool)
    (top_connections : list connection) : M unit :=
  match top_connections with
  | [] => mret ()
  | conn :: rest =>
      logging INFO (ConnectionSaved (conn_line conn) (conn_height conn)
                      (latency (conn_info conn)));;
      (if first_entry then file_write path (conn_line conn)
       else file_write path ("," +:+ conn_line conn));;
      write_connections path false rest
  end.

(** [connections] is the list object [successful_connections]: the sort is
    in place.  The slice is a new list. *)
Definition save_top_connections (output_filename : string) (top_n : Z) : M nat :=
  set_successful_connections (sort_desc conn_height);;
  connections ← gets successful_connections;
  let top_connections := slice_to connections top_n in
  open_w output_filename;;
  write_connections output_filename true top_connections;;
  logging INFO (SavedTop top_n output_filename);;
  save_ids_only top_connections output_filename;;
  mret (length top_connections).

(** [moniker_info] is the list object of that name. *)
Definition save_moniker_info (output_filename : string) : M unit :=
  moniker_info ← gets moniker_info_list;
  set_files (λ fs, <[output_filename := Json moniker_info]> fs);;
  logging INFO (SavedMoniker output_filename).

(** ** The sources of the run *)

(** An entry of [result.peers] in the answer to [net_info]:
    [node_info.id], [remote_ip] and [node_info.listen_addr]. *)
Record peer_entry := {
  peer_id : string;
  remote_ip : string;
  listen_addr : string
}.

Record World := {
  (** what the i-th task observes of the network *)
  peer_net : nat → Net;
  (** [GET url] read as a status document: the height as an [int] *)
  rpc_status : string → http_outcome Z;
  (** [GET url] read as a [net_info] document: the peer entries *)
  rpc_net_info : string → http_outcome (list peer_entry);
  (** [open(path, 'r')] and [file.read()] *)
  read_file : string → result string
}.

Definition fetch_expected_height (w : World) (rpc_url : string) : M (option Z) :=
  match on_status_200 (rpc_status w (rpc_url +:+ "/status")) with
  | Ok (Some expected_height) =>
      logging INFO (ExpectedHeightFetched rpc_url expected_height);;
      mret (Some expected_height)
  | Ok None => mret None
  | Raise RequestException =>
      logging ERROR (FailedExpectedHeight rpc_url);; mret None
  | Raise e => raise (Exc e)
  end.

(** [listen_addr.split(':')[-1]]. *)
Definition listen_port (listen_addr : string) : string :=
  default EmptyString (last (split ":" listen_addr)).

Definition fetch_peers (w : World) (rpc_url : string) : M (list string) :=
  match on_status_200 (rpc_net_info w (rpc_url +:+ "/net_info")) with
  | Ok (Some peers) =>
      mret ((λ peer, peer_id peer +:+ "@" +:+ remote_ip peer +:+ ":"
                     +:+ listen_port (listen_addr peer)) <$> peers)
  | Ok None => mret []
  | Raise RequestException =>
      logging ERROR (FailedPeers rpc_url);; mret []
  | Raise e => raise (Exc e)
  end.

Definition parse_file (w : World) (file_path : string) : M (list string) :=
  match read_file w file_path with
  | Ok text => mret (split "," (strip text))
  | Raise IOError => logging ERROR (FailedReadFile file_path);; mret []
  | Raise e => raise (Exc e)
  end.

(** ** The script *)

Definition argv_at (argv : list string) (i : nat) : M string :=
  match argv !! i with
  | Some s => mret s
  | None => raise (Exc IndexError)
  end.

Definition int_arg (s : string) : M Z :=
  match int s with
  | Some n => mret n
  | None => raise (Exc ValueError)
  end.

(** Lines 220 to 227 of the script: evaluate the descriptors, rank and save
    the selection, and save the metadata when asked to.  It gives
    [matched_nodes] and [saved_nodes]. *)
Definition evaluate_and_save (w : World) (order : list nat)
    (lines : list string) (expected_height : Z) (max_latency : option Z)
    (accepted_height_difference : Z) (output_filename : string) (top_n : Z)
    (json_format : bool) : M (nat * nat) :=
  check_nodes (peer_net w) order lines expected_height max_latency
    accepted_height_difference;;
  matched_nodes ← gets (λ m, length (successful_connections m));
  saved_nodes ← save_top_connections output_filename top_n;
  (if json_format then
     save_moniker_info (replace ".txt" "_moniker_objs.json" output_filename)
   else mret ());;
  mret (matched_nodes, saved_nodes).

Definition main (w : World) (order : list nat) (argv : list string) : M unit :=
  try_except
    (rpc_url ← argv_at argv 1;
     get_peers_from_file ← argv_at argv 2;
     top_n ← argv_at argv 3 ≫= int_arg;
     output_filename ← argv_at argv 4;
     arg5 ← argv_at argv 5;
     let json_format := bool_decide (lower arg5 = "true") in
     accepted_height_difference ← argv_at argv 6 ≫= int_arg;
     max_latency ←
       (if bool_decide (7 < length argv)%nat
        then n ← argv_at argv 7 ≫= int_arg; mret (Some n) else mret None);
     expected_height ← fetch_expected_height w rpc_url;
     match expected_height with
     | None => logging ERROR ExitNoExpectedHeight;; sys_exit 1
     | Some expected_height =>
         logging INFO (ExpectedHeightIs expected_height);;
         '(lines, peers_source) ←
           (if bool_decide (get_peers_from_file ≠ EmptyString) then
              lines ← parse_file w get_peers_from_file;
              if bool_decide (lines = []) then
                logging ERROR (ExitNoPeersFromFile get_peers_from_file);;
                sys_exit 1
              else mret (lines, get_peers_from_file)
            else
              lines ← fetch_peers w rpc_url;
              if bool_decide (lines = []) then
                logging ERROR (ExitNoPeersFromRpc rpc_url);; sys_exit 1
              else mret (lines, rpc_url +:+ "/net_info"));
         '(matched_nodes, saved_nodes) ←
           evaluate_and_save w order lines expected_height max_latency
             accepted_height_difference output_filename top_n json_format;
         logging INFO ScriptRunTime;;
         logging INFO (TotalMatched matched_nodes);;
         logging INFO (TotalSaved saved_nodes);;
         logging INFO (PeersFetchedFrom peers_source);;
         logging INFO Completed
     end)
    (λ e, logging ERROR (ErrorOccurred e)).

(** The machine a run starts from, with the files already on disk. *)
Definition boot (fs : gmap string content) : machine :=
  {| files := fs; log := []; successful_connections := [];
     moniker_info_list := []; processed_count := 0 |}.

(** The exit status of the process with the machine it leaves: 0 when the
    script runs to its end, the code of [sys.exit] otherwise, and 1 for an
    exception that nothing caught. *)
Definition run_script (w : World) (order : list nat) (argv : list string)
    (fs : gmap string content) : Z * machine :=
  match main w order argv (boot fs) with
  | (inl _, m) => (0, m)
  | (inr (SystemExit code), m) => (code, m)
  | (inr (Exc _), m) => (1, m)
  end.

(** ** A concrete world *)

(** The reference node is at height 1000 and knows two peers; the file
    [peers.txt] lists three descriptors, [empty.txt] is empty and
    [blank.txt] holds white space only. *)
Definition demo_world : World := {|
  peer_net _ := demo_net;
  rpc_status url :=
    if decide (url = "http://rpc/status") then Response 200 (Ok 1000)
    else RequestFails;
  rpc_net_info url :=
    if decide (url = "http://rpc/net_info")
    then Response 200
           (Ok [ {| peer_id := "n2"; remote_ip := "10.0.0.2";
                    listen_addr := "tcp://0.0.0.0:26656" |};
                 {| peer_id := "n1"; remote_ip := "10.0.0.1";
                    listen_addr := "tcp://0.0.0.0:26656" |} ])
    else RequestFails;
  read_file path :=
    if decide (path = "peers.txt")
    then Ok ("n2@10.0.0.2:26656,n1@10.0.0.1:26656,n3@10.0.0.3:26656"
             +:+ newline)
    else if decide (path = "empty.txt") then Ok EmptyString
    else if decide (path = "blank.txt") then Ok (" " +:+ newline)
    else Raise IOError
|}.

(** * The vocabulary of the statements *)

(** Descending order of the key. *)
Definition desc {A} (key : A → Z) (a b : A) : Prop := key b ≤ key a.

(** The record [process_line] builds from the parts of a descriptor, the
    measured latency and the status the peer reported. *)
Definition record_of (line ip : string) (port : Z) (lat : Q) (h : Z)
    (mon nid : string) : connection :=
  (line, h,
   {| moniker := mon; node_id := nid; ip := ip; port := port;
      full_peer := nid +:+ "@" +:+ ip +:+ ":" +:+ str port;
      latency := int_of_float lat |}).

(** The record the future [i] contributes, if any. *)
Definition accepted_of (futures : list (string * result (option connection)))
    (i : nat) : list connection :=
  match futures !! i with
  | Some (_, Ok (Some c)) => [c]
  | _ => []
  end.

(** The records collected when the futures complete in [order]. *)
Definition collected (futures : list (string * result (option connection)))
    (order : list nat) : list connection :=
  order ≫= accepted_of futures.

(** The futures of [order] whose [result()] returns. *)
Fixpoint completed (futures : list (string * result (option connection)))
    (order : list nat) : nat :=
  match order with
  | [] => 0
  | i :: rest =>
      match futures !! i with
      | Some (_, Ok _) => S (completed futures rest)
      | _ => completed futures rest
      end
  end.

(** The log of the collector, [count] entries having been processed. *)
Fixpoint collector_log (futures : list (string * result (option connection)))
    (total_lines count : nat) (order : list nat) : list (level * message) :=
  match order with
  | [] => []
  | i :: rest =>
      match futures !! i with
      | Some (_, Ok _) =>
          (INFO, Processed (S count) total_lines)
          :: collector_log futures total_lines (S count) rest
      | Some (line, Raise e) =>
          (ERROR, ErrorProcessingLine line e)
          :: collector_log futures total_lines count rest
      | None => collector_log futures total_lines count rest
      end
  end.

(** The futures of [order] whose [result()] raises. *)
Fixpoint failed (futures : list (string * result (option connection)))
    (order : list nat) : nat :=
  match order with
  | [] => 0
  | i :: rest =>
      match futures !! i with
      | Some (_, Raise _) => S (failed futures rest)
      | _ => failed futures rest
      end
  end.

(** The records of the tasks that returned one, in the order of the lines. *)
Definition accepted_records (nets : nat → Net) (lines : list string)
    (e : Z) (ml : option Z) (d : Z) : list connection :=
  collected (submit_all nets lines e ml d) (seq 0 (length lines)).

(** What a loop with the [first_entry] flag writes. *)
Fixpoint entries_text (first_entry : bool) (l : list string) : string :=
  match l with
  | [] => EmptyString
  | x :: l' => (if first_entry then x else "," +:+ x) +:+ entries_text false l'
  end.

(** The records [save_top_connections] logs while it writes. *)
Definition saved_log (conns : list connection) : list (level * message) :=
  (λ c, (INFO, ConnectionSaved (conn_line c) (conn_height c)
                 (latency (conn_info c)))) <$> conns.

(** The reported ids, and the descriptor lines, of a list of records. *)
Definition ids_of (conns : list connection) : list string :=
  node_id ∘ conn_info <$> conns.

Definition lines_of (conns : list connection) : list string :=
  conn_line <$> conns.

(** The selection [top_connections] of [save_top_connections]. *)
Definition top_connections (connections : list connection) (top_n : Z)
  : list connection :=
  slice_to (sort_desc conn_height connections) top_n.

(** The name of the metadata file, as the script derives it. *)
Definition moniker_filename (output_filename : string) : string :=
  replace ".txt" "_moniker_objs.json" output_filename.

(** A descriptor that does not split into two parts at ['@'], or whose
    second part does not split into two parts at [':']. *)
Definition wrong_parts (line : string) : Prop :=
  match split "@" line with
  | [_; hostport] => length (split ":" hostport) ≠ 2%nat
  | _ => True
  end.

(** A descriptor of the right shape whose port field is not a number. *)
Definition bad_port (line : string) : Prop :=
  match split "@" line with
  | [_; hostport] =>
      match split ":" hostport with
      | [_; port_s] => int port_s = None
      | _ => False
      end
  | _ => False
  end.

Definition malformed (line : string) : Prop := wrong_parts line ∨ bad_port line.

(** [max_latency] as the command line gives it: absent, or the integer of
    the eighth word. *)
Definition max_latency_of (rest : list string) : option (option Z) :=
  match rest with
  | [] => Some None
  | s :: _ => Some <$> int s
  end.

(** The log up to the evaluation of the descriptors. *)
Definition boot_log (rpc_url : string) (e : Z) : list (level * message) :=
  [(INFO, ExpectedHeightFetched rpc_url e); (INFO, ExpectedHeightIs e)].

(** The latency bound [ml'] lets through whatever the bound [ml] does. *)
Definition no_stricter (ml ml' : option Z) : Prop :=
  match ml', ml with
  | None, _ => True
  | Some m', Some m => m ≤ m'
  | Some _, None => False
  end.

(** The descriptor [fetch_peers] builds from a peer entry. *)
Definition peer_descriptor (peer : peer_entry) : string :=
  peer_id peer +:+ "@" +:+ remote_ip peer +:+ ":"
  +:+ listen_port (listen_addr peer).

(** A query that gives its caller nothing: the request failed, the status
    code is not 200, or reading the body failed with a
    [RequestException]. *)
Definition unavailable {A} (r : http_outcome A) : Prop :=
  match r with
  | RequestFails => True
  | Response status_code fields =>
      status_code ≠ 200 ∨ fields = Raise RequestException
  end.

(** The script once its arguments are read: lines 200 to 236. *)
Definition main_body (w : World) (order : list nat)
    (rpc_url get_peers_from_file : string) (top_n : Z)
    (output_filename : string) (json_format : bool)
    (accepted_height_difference : Z) (max_latency : option Z) : M unit :=
  expected_height ← fetch_expected_height w rpc_url;
  match expected_height with
  | None => logging ERROR ExitNoExpectedHeight;; sys_exit 1
  | Some expected_height =>
      logging INFO (ExpectedHeightIs expected_height);;
      '(lines, peers_source) ←
        (if bool_decide (get_peers_from_file ≠ EmptyString) then
           lines ← parse_file w get_peers_from_file;
           if bool_decide (lines = []) then
             logging ERROR (ExitNoPeersFromFile get_peers_from_file);;
             sys_exit 1
           else mret (lines, get_peers_from_file)
         else
           lines ← fetch_peers w rpc_url;
           if bool_decide (lines = []) then
             logging ERROR (ExitNoPeersFromRpc rpc_url);; sys_exit 1
           else mret (lines, rpc_url +:+ "/net_info"));
      '(matched_nodes, saved_nodes) ←
        evaluate_and_save w order lines expected_height max_latency
          accepted_height_difference output_filename top_n json_format;
      logging INFO ScriptRunTime;;
      logging INFO (TotalMatched matched_nodes);;
      logging INFO (TotalSaved saved_nodes);;
      logging INFO (PeersFetchedFrom peers_source);;
      logging INFO Completed
  end.

(** The files a run leaves when it has collected the records [acc]: the
    selection in the output file, its ids beside it, and the metadata of
    all the records when asked for, each write on top of the earlier
    ones. *)
Definition files_after (fs : gmap string content) (output_filename : string)
    (top_n : Z) (json_format : bool) (acc : list connection)
  : gmap string content :=
  let top := top_connections acc top_n in
  let saved :=
    <[ids_only_filename output_filename := Text (join "," (ids_of top))]>
      (<[output_filename := Text (join "," (lines_of top))]> fs) in
  if json_format
  then <[moniker_filename output_filename := Json (conn_info <$> acc)]> saved
  else saved.

(** A string that holds a white-space character. *)
Fixpoint any_space (s : string) : bool :=
  match s with
  | EmptyString => false
  | String c s' => isspace c || any_space s'
  end.

(** A string of decimal digits, and the number it writes. *)
Fixpoint all_digits (s : string) : bool :=
  match s with
  | EmptyString => true
  | String c s' => bool_decide (is_Some (digit c)) && all_digits s'
  end.

Fixpoint digits_value (s : string) : Z :=
  match s with
  | EmptyString => 0
  | String c s' =>
      default 0 (digit c) * 10 ^ Z.of_nat (String.length s') + digits_value s'
  end.

(** ** Concrete inputs *)

(** A descriptor whose port is not a number, and two that can be probed. *)
Definition demo_lines : list string :=
  ["n1@10.0.0.1:p2p"; "n2@10.0.0.2:26656"; "n1@10.0.0.1:26656"].

(** Three accepted records, two of them at the same height, in the order
    they were collected. *)
Definition demo_record (line nid : string) (h : Z) : connection :=
  record_of line "10.0.0.9" 26656 (10 # 1) h EmptyString nid.

Definition demo_machine : machine :=
  upd_successful_connections
    (λ _, [ demo_record "a@10.0.0.9:26656" "A" 1005;
            demo_record "b@10.0.0.9:26656" "B" 1010;
            demo_record "c@10.0.0.9:26656" "C" 1005 ])
    (boot ∅).

(** A world like [demo_world] whose reference node knows no peer. *)
Definition lonely_world : World := {|
  peer_net := peer_net demo_world;
  rpc_status := rpc_status demo_world;
  rpc_net_info url :=
    if decide (url = "http://rpc/net_info") then Response 200 (Ok [])
    else RequestFails;
  read_file := read_file demo_world
|}.

(** A world whose reference node answers 200 with a body that has no
    height, and whose peers file cannot be decoded. *)
Definition odd_world : World := {|
  peer_net := peer_net demo_world;
  rpc_status url :=
    if decide (url = "http://odd/status") then Response 200 (Raise KeyError)
    else rpc_status demo_world url;
  rpc_net_info := rpc_net_info demo_world;
  read_file path :=
    if decide (path = "binary.txt") then Raise ValueError
    else read_file demo_world path
|}.

Definition demo_argv (file : string) : list string :=
  ["peers_checker.py"; "http://rpc"; file; "1"; "top.txt"; "false"; "20"].

(** * Properties *)

(** ** The built-ins *)

Example ex_split_at : Py.split "@" "id@host:26656" = ["id"; "host:26656"].
Proof. reflexivity. Qed.

Example ex_split_empty : Py.split "," EmptyString = [EmptyString].
Proof. reflexivity. Qed.

Example ex_strip_blank : Py.strip (Py.newline +:+ " ") = EmptyString.
Proof. reflexivity. Qed.

Example ex_int_port : Py.int " 26_656 " = Some 26656.
Proof. reflexivity. Qed.

Example ex_int_bad :
  Py.int "26656x" = None ∧ Py.int EmptyString = None ∧ Py.int "_1" = None.
Proof. done. Qed.

(** The separators 28..31 are white space for [strip], not for [int]; NEL
    and the no-break space are white space for both. *)
Example ex_int_separator :
  Py.strip (String (ascii_of_nat 28) "26656") = "26656"
  ∧ Py.int (String (ascii_of_nat 28) "26656") = None
  ∧ Py.int ("26656" +:+ String (ascii_of_nat 31) EmptyString) = None
  ∧ Py.int (String (ascii_of_nat 133) "26656"
            +:+ String (ascii_of_nat 160) EmptyString) = Some 26656.
Proof. vm_compute. done. Qed.

(** A literal of 4300 digits is read, one of 4301 digits is refused, leading
    zeros included. *)
Example ex_int_digits_limit :
  is_Some (Py.int (String.string_of_list_ascii (replicate (Z.to_nat 4300) "7"%char)))
  ∧ Py.int (String.string_of_list_ascii (replicate (Z.to_nat 4301) "7"%char)) = None
  ∧ Py.int (String.string_of_list_ascii (replicate (Z.to_nat 4301) "0"%char)) = None.
Proof. split; [vm_compute; eauto|vm_compute; done]. Qed.

Example ex_replace_txt :
  Py.replace ".txt" "_ids_only.txt" "top.txt" = "top_ids_only.txt".
Proof. reflexivity. Qed.

Example ex_sort_desc_stable :
  Py.sort_desc snd [("a", 5); ("b", 7); ("c", 5); ("d", 7)]
  = [("b", 7); ("d", 7); ("a", 5); ("c", 5)].
Proof. reflexivity. Qed.

Example ex_slice_to :
  Py.slice_to [1; 2; 3] 2 = [1; 2] ∧ Py.slice_to [1; 2; 3] 5 = [1; 2; 3]
  ∧ Py.slice_to [1; 2; 3] (-1) = [1; 2] ∧ Py.slice_to [1; 2; 3] (-4) = [].
Proof. done. Qed.

Example ex_str_port : Py.str 26656 = "26656" ∧ Py.str (-3) = "-3".
Proof. split; vm_compute; reflexivity. Qed.

Example ex_process_line_accepts :
  process_line demo_net "n1@10.0.0.1:26656" 1000 (Some 50) 5
  = Ok (Some ("n1@10.0.0.1:26656", 1003,
              {| moniker := "alice"; node_id := "aa11"; ip := "10.0.0.1";
                 port := 26656; full_peer := "aa11@10.0.0.1:26656";
                 latency := 20 |})).
Proof. vm_compute. reflexivity. Qed.

Example ex_process_line_height_off :
  process_line demo_net "n2@10.0.0.2:26656" 1000 None 5 = Ok None.
Proof. vm_compute. reflexivity. Qed.

Example ex_process_line_too_slow :
  process_line demo_net "n2@10.0.0.2:26656" 1000 (Some 50) 10 = Ok None.
Proof. vm_compute. reflexivity. Qed.

Example ex_process_line_unreachable :
  process_line demo_net "n3@10.0.0.3:26656" 1000 None 5 = Ok None.
Proof. vm_compute. reflexivity. Qed.

Example ex_process_line_missing_port :
  process_line demo_net "n1@10.0.0.1" 1000 None 5 = Ok None.
Proof. vm_compute. reflexivity. Qed.

Example ex_process_line_bad_port :
  process_line demo_net "n1@10.0.0.1:p2p" 1000 None 5 = Raise ValueError.
Proof. vm_compute. reflexivity. Qed.

Example ex_process_line_separator_port :
  process_line demo_net ("n1@10.0.0.1:" +:+ String (ascii_of_nat 28) "26656")
    1000 None 5 = Raise ValueError
  ∧ bad_port ("n1@10.0.0.1:" +:+ String (ascii_of_nat 28) "26656").
Proof. vm_compute. done. Qed.

Section sort_desc.
Context {A : Type} (key : A → Z).

Lemma insert_desc_perm x l : insert_desc key x l ≡ₚ x :: l.
Proof.
  induction l as [|y l IH]; simpl; [done|].
  case_match; [|done]. rewrite IH. apply Permutation_swap.
Qed.

Lemma sort_desc_perm l : sort_desc key l ≡ₚ l.
Proof.
  induction l as [|x l IH]; simpl; [done|].
  by rewrite insert_desc_perm, IH.
Qed.

Lemma insert_desc_sorted x l :
  StronglySorted (desc key) l → StronglySorted (desc key) (insert_desc key x l).
Proof.
  induction 1 as [|y l Hl IH Hy]; simpl.
  - repeat constructor.
  - destruct (Z.ltb_spec (key x) (key y)) as [Hlt|Hge].
    + constructor; [done|].
      rewrite insert_desc_perm. constructor; [unfold desc; lia | done].
    + constructor; [by constructor|].
      constructor; [done|].
      eapply Forall_impl; [exact Hy|]. unfold desc. intros z Hz. lia.
Qed.

Lemma sort_desc_sorted l : StronglySorted (desc key) (sort_desc key l).
Proof.
  induction l; simpl; [constructor | by apply insert_desc_sorted].
Qed.

(** Stability: the elements of one key are in the order they had. *)
Lemma insert_desc_stable h x l :
  filter (λ a, key a = h) (insert_desc key x l)
  = filter (λ a, key a = h) (x :: l).
Proof.
  induction l as [|y l IH]; simpl; [done|].
  destruct (Z.ltb_spec (key x) (key y)) as [Hlt|Hge]; [|done].
  rewrite filter_cons, IH, !filter_cons.
  repeat case_decide; try done; lia.
Qed.

Lemma sort_desc_stable h l :
  filter (λ a, key a = h) (sort_desc key l) = filter (λ a, key a = h) l.
Proof.
  induction l as [|x l IH]; simpl; [done|].
  by rewrite insert_desc_stable, !filter_cons, IH.
Qed.

Lemma sort_desc_length l : length (sort_desc key l) = length l.
Proof. by rewrite sort_desc_perm. Qed.

(** Any stable descending sort gives this list: the model of the built-in
    does not depend on the algorithm. *)
Lemma stable_desc_unique l1 l2 :
  StronglySorted (desc key) l1 → StronglySorted (desc key) l2 →
  (∀ h, filter (λ a, key a = h) l1 = filter (λ a, key a = h) l2) →
  l1 = l2.
Proof.
  intros H1. revert l2.
  induction H1 as [|x l1 Hs1 IH Hx]; intros l2 H2 Hf.
  - destruct l2 as [|y l2]; [done|].
    specialize (Hf (key y)). rewrite filter_cons in Hf.
    by rewrite decide_True in Hf.
  - destruct H2 as [|y l2 Hs2 Hy].
    { specialize (Hf (key x)). rewrite filter_cons in Hf.
      by rewrite decide_True in Hf. }
    assert (key x = key y) as Hk.
    { pose proof (Hf (key x)) as Hfx. pose proof (Hf (key y)) as Hfy.
      rewrite !filter_cons in Hfx, Hfy. cbv beta in Hfx, Hfy.
      destruct (decide (key x = key y)) as [|Hne]; [done|exfalso].
      repeat case_decide; try congruence.
      assert (x ∈ l2) as Hin2.
      { eapply (list_elem_of_filter (λ a, key a = key x)).
        rewrite <-Hfx. left. }
      assert (y ∈ l1) as Hin1.
      { eapply (list_elem_of_filter (λ a, key a = key y)).
        rewrite Hfy. left. }
      rewrite Forall_forall in Hx, Hy.
      apply Hx in Hin1. apply Hy in Hin2. unfold desc in *. lia. }
    pose proof (Hf (key x)) as Hfx.
    rewrite !filter_cons in Hfx. cbv beta in Hfx.
    repeat case_decide; try congruence.
    injection Hfx as -> Hfx. f_equal. apply IH; [done|].
    intros h. specialize (Hf h). rewrite !filter_cons in Hf.
    case_decide; [by injection Hf|done].
Qed.

End sort_desc.

Lemma slice_to_nonneg {A} (l : list A) (n : Z) :
  0 ≤ n → slice_to l n = take (Z.to_nat n) l.
Proof. intros Hn. unfold slice_to. by rewrite (proj2 (Z.ltb_ge n 0)). Qed.

Lemma split_nonempty sep s : split sep s ≠ [].
Proof. destruct s; simpl; [done|]. repeat case_match; done. Qed.

(** Splitting at a separator undoes joining with it, for parts that do not
    hold the separator. *)
Lemma split_absent sep s :
  contains (String sep EmptyString) s = false → split sep s = [s].
Proof.
  induction s as [|c s IH]; [done|].
  cbn [contains startswith split]. unfold ascii_eqb.
  rewrite andb_true_r, (Ascii.eqb_sym sep c).
  intros [Hc Hs]%orb_false_iff. rewrite Hc, IH; done.
Qed.

Lemma split_append sep s t :
  contains (String sep EmptyString) s = false →
  split sep (s +:+ String sep t) = s :: split sep t.
Proof.
  induction s as [|c s IH].
  - intros _. change (EmptyString +:+ ?x) with x.
    cbn [split]. unfold ascii_eqb. by rewrite Ascii.eqb_refl.
  - cbn [contains startswith]. unfold ascii_eqb.
    rewrite andb_true_r, (Ascii.eqb_sym sep c).
    intros [Hc Hs]%orb_false_iff.
    change (String c s +:+ ?x) with (String c (s +:+ x)).
    cbn [split]. unfold ascii_eqb. rewrite Hc, IH; done.
Qed.

Lemma split_join sep l :
  l ≠ [] →
  Forall (λ s, contains (String sep EmptyString) s = false) l →
  split sep (join (String sep EmptyString) l) = l.
Proof.
  intros Hne Hl. induction Hl as [|s l Hs Hl IH]; [done|].
  destruct l as [|s' l].
  - by apply split_absent.
  - cbn [join].
    change (String sep EmptyString +:+ ?x) with (String sep x).
    rewrite split_append by done. f_equal. by apply IH.
Qed.

Lemma replace_from_absent old new s :
  contains old s = false → replace_from old new 0 s = s.
Proof.
  induction s as [|c s IH]; [done|].
  intros Hc. cbn [contains] in Hc.
  apply orb_false_iff in Hc as [Hs Hc].
  cbn [replace_from]. rewrite Hs. by rewrite IH.
Qed.

Lemma replace_absent old new s :
  contains old s = false → replace old new s = s.
Proof. apply replace_from_absent. Qed.

(** [int(x) <= n] as soon as [x <= n], also for a negative [x]. *)
Lemma int_of_float_le x n :
  float_le_int x n = true → int_of_float x ≤ n.
Proof.
  unfold float_le_int, int_of_float. rewrite Qle_bool_iff.
  unfold Qle. destruct x as [p q]. simpl. rewrite Z.mul_1_r.
  intros H.
  destruct (Z.le_gt_cases 0 p) as [Hp|Hp].
  - rewrite Z.quot_div_nonneg by lia. apply Z.div_le_upper_bound; lia.
  - rewrite <-(Z.opp_involutive p), Z.quot_opp_l by lia.
    rewrite Z.quot_div_nonneg by lia.
    destruct (Z.le_gt_cases 0 n) as [Hn|Hn].
    + assert (0 ≤ (- p) `div` Z.pos q); [|lia].
      apply Z.div_pos; lia.
    + assert (- n ≤ (- p) `div` Z.pos q); [|lia].
      apply Z.div_le_lower_bound; lia.
Qed.

(** ** One descriptor *)

(** Every check a descriptor went through when a record comes out. *)
Lemma process_line_accepted net line e ml d c :
  process_line net line e ml d = Ok (Some c) →
  ∃ id hostport ip port_s port lat h mon nid,
    split "@" line = [id; hostport] ∧
    split ":" hostport = [ip; port_s] ∧
    int port_s = Some port ∧
    create_connection net ip port = Connected lat ∧
    (∀ m, ml = Some m → float_le_int lat m = true) ∧
    get_latest_block_height net ip (port + 1) = Ok (Some h, mon, nid) ∧
    Z.abs (h - e) ≤ d ∧
    c = record_of line ip port lat h mon nid.
Proof.
  unfold process_line, int_port, check_connection, latency_accepted.
  intros H.
  destruct (split "@" line) as [|id [|hostport [|? ?]]] eqn:Hat; try done.
  destruct (split ":" hostport) as [|ip [|port_s [|? ?]]] eqn:Hcolon;
    try done.
  destruct (int port_s) as [port|] eqn:Hport; cbn in H; [|done].
  destruct (create_connection net ip port) as [lat| |] eqn:Hconn;
    cbn in H; try done.
  assert (∀ m, ml = Some m → float_le_int lat m = true) as Hlat.
  { intros m ->. cbn in H. by destruct (float_le_int lat m). }
  assert (match ml with Some m => Ok (float_le_int lat m) | None => Ok true end
          = Ok true) as Hacc.
  { destruct ml as [m|]; [|done]. by rewrite Hlat. }
  rewrite Hacc in H. cbn in H.
  destruct (get_latest_block_height net ip (port + 1))
    as [[[[h|] mon] nid]|] eqn:Hst; cbn in H; try done.
  destruct (Z.leb_spec (Z.abs (h - e)) d) as [Hd|]; cbn in H; [|done].
  injection H as <-.
  by exists id, hostport, ip, port_s, port, lat, h, mon, nid.
Qed.

(** A descriptor that parses, with what its probes observe: the outcome is
    decided by the latency bound and the height tolerance alone. *)
Lemma process_line_probed net line e ml d id hostport ip port_s port lat :
  split "@" line = [id; hostport] →
  split ":" hostport = [ip; port_s] →
  int port_s = Some port →
  create_connection net ip port = Connected lat →
  process_line net line e ml d =
    if (if ml is Some m then float_le_int lat m else true) then
      '(block_height, mon, nid) ← get_latest_block_height net ip (port + 1);
      match block_height with
      | Some h =>
          Ok (if Z.abs (h - e) <=? d
              then Some (record_of line ip port lat h mon nid) else None)
      | None => Ok None
      end
    else Ok None.
Proof.
  intros Hat Hcolon Hport Hconn.
  unfold process_line, int_port, check_connection, latency_accepted.
  rewrite Hat, Hcolon, Hport. cbn. rewrite Hconn. cbn.
  destruct ml as [m|]; cbn.
  - destruct (float_le_int lat m); cbn; [|done].
    destruct (get_latest_block_height net ip (port + 1))
      as [[[[h|] mon] nid]|]; cbn; try done.
    by destruct (Z.abs (h - e) <=? d).
  - destruct (get_latest_block_height net ip (port + 1))
      as [[[[h|] mon] nid]|]; cbn; try done.
    by destruct (Z.abs (h - e) <=? d).
Qed.

(** C1. Every record [process_line] returns carries the height its peer
    reported, and that height is within [accepted_height_difference] of the
    expected height; a descriptor that is reachable within the latency bound
    and whose peer reports a height further away gives [None]. *)
Theorem accepted_height_within_difference net line e ml d :
  (∀ c, process_line net line e ml d = Ok (Some c) →
        Z.abs (conn_height c - e) ≤ d
        ∧ ∃ ip port mon nid,
            get_latest_block_height net ip (port + 1)
            = Ok (Some (conn_height c), mon, nid))
  ∧ (∀ id hostport ip port_s port lat h mon nid,
        split "@" line = [id; hostport] →
        split ":" hostport = [ip; port_s] →
        int port_s = Some port →
        create_connection net ip port = Connected lat →
        (∀ m, ml = Some m → float_le_int lat m = true) →
        get_latest_block_height net ip (port + 1) = Ok (Some h, mon, nid) →
        d < Z.abs (h - e) →
        process_line net line e ml d = Ok None).
Proof.
  split.
  - intros c Hc.
    apply process_line_accepted in Hc
      as (id & hostport & ip & port_s & port & lat & h & mon & nid
          & _ & _ & _ & _ & _ & Hst & Hd & ->).
    split; [done|]. by exists ip, port, mon, nid.
  - intros id hostport ip port_s port lat h mon nid
      Hat Hcolon Hport Hconn Hlat Hst Hd.
    rewrite (process_line_probed _ _ _ _ _ _ _ _ _ _ _ Hat Hcolon Hport Hconn).
    assert ((if ml is Some m then float_le_int lat m else true) = true) as ->.
    { destruct ml as [m|]; [by apply Hlat|done]. }
    rewrite Hst. cbn. by rewrite (proj2 (Z.leb_gt _ _) Hd).
Qed.

Lemma accepted_height_within_difference_witness :
  Z.abs (1003 - 1000) ≤ 5
  ∧ process_line demo_net "n2@10.0.0.2:26656" 1000 (Some 100) 5 = Ok None.
Proof.
  split.
  - refine (proj1 (proj1 (accepted_height_within_difference demo_net
               "n1@10.0.0.1:26656" 1000 (Some 50) 5)
             (record_of "n1@10.0.0.1:26656" "10.0.0.1" 26656 (41 # 2) 1003
                "alice" "aa11") _)).
    vm_compute. reflexivity.
  - refine (proj2 (accepted_height_within_difference demo_net
               "n2@10.0.0.2:26656" 1000 (Some 100) 5)
             "n2" "10.0.0.2:26656" "10.0.0.2" "26656" 26656 (75 # 1) 990
             "bob" "bb22" _ _ _ _ _ _ _).
    + vm_compute. reflexivity.
    + vm_compute. reflexivity.
    + vm_compute. reflexivity.
    + vm_compute. reflexivity.
    + intros m [= <-]. vm_compute. reflexivity.
    + vm_compute. reflexivity.
    + vm_compute. reflexivity.
Defined.

(** C5. With a latency bound configured, every record [process_line] returns
    comes from a connection measured within the bound, and the latency it
    records is within the bound too; a reachable descriptor measured above
    the bound gives [None]. *)
Theorem accepted_latency_within_bound net line e m d :
  (∀ c, process_line net line e (Some m) d = Ok (Some c) →
        latency (conn_info c) ≤ m
        ∧ ∃ ip port lat,
            create_connection net ip port = Connected lat
            ∧ Qle lat (inject_Z m)
            ∧ latency (conn_info c) = int_of_float lat)
  ∧ (∀ id hostport ip port_s port lat,
        split "@" line = [id; hostport] →
        split ":" hostport = [ip; port_s] →
        int port_s = Some port →
        create_connection net ip port = Connected lat →
        Qlt (inject_Z m) lat →
        process_line net line e (Some m) d = Ok None).
Proof.
  split.
  - intros c Hc.
    apply process_line_accepted in Hc
      as (id & hostport & ip & port_s & port & lat & h & mon & nid
          & _ & _ & _ & Hconn & Hlat & _ & _ & ->).
    specialize (Hlat m eq_refl). split.
    + by apply int_of_float_le.
    + exists ip, port, lat. repeat split; [done|].
      by apply Qle_bool_iff.
  - intros id hostport ip port_s port lat Hat Hcolon Hport Hconn Hlt.
    rewrite (process_line_probed _ _ _ _ _ _ _ _ _ _ _ Hat Hcolon Hport Hconn).
    destruct (float_le_int lat m) eqn:Hle; [|done].
    apply Qle_bool_iff in Hle. by apply Qlt_not_le in Hlt.
Qed.

Lemma accepted_latency_within_bound_witness :
  20 ≤ 50
  ∧ process_line demo_net "n2@10.0.0.2:26656" 1000 (Some 50) 10 = Ok None.
Proof.
  split.
  - refine (proj1 (proj1 (accepted_latency_within_bound demo_net
               "n1@10.0.0.1:26656" 1000 50 5)
             (record_of "n1@10.0.0.1:26656" "10.0.0.1" 26656 (41 # 2) 1003
                "alice" "aa11") _)).
    vm_compute. reflexivity.
  - refine (proj2 (accepted_latency_within_bound demo_net
               "n2@10.0.0.2:26656" 1000 50 10)
             "n2" "10.0.0.2:26656" "10.0.0.2" "26656" 26656 (75 # 1)
             _ _ _ _ _).
    + vm_compute. reflexivity.
    + vm_compute. reflexivity.
    + vm_compute. reflexivity.
    + vm_compute. reflexivity.
    + vm_compute. reflexivity.
Defined.

(** ** The scheduler *)

Section collector.
Context (futures : list (string * result (option connection))).
Context (total_lines : nat).

Lemma collect_future_run i m :
  collect_future futures total_lines i m =
    (inl (),
     {| files := files m;
        log := log m
               ++ collector_log futures total_lines (processed_count m) [i];
        successful_connections :=
          successful_connections m ++ collected futures [i];
        moniker_info_list :=
          moniker_info_list m ++ (conn_info <$> collected futures [i]);
        processed_count := (processed_count m + completed futures [i])%nat |}).
Proof.
  destruct m as [fs lg sc mi pc].
  unfold collect_future, collected, accepted_of.
  cbn [completed collector_log mbind list_bind].
  destruct (futures !! i) as [[line [[[[ln h] info]|]|e]]|]; cbn;
    by rewrite ?app_nil_r, ?Nat.add_0_r, ?Nat.add_1_r.
Qed.

Lemma collected_cons i order :
  collected futures (i :: order)
  = collected futures [i] ++ collected futures order.
Proof. unfold collected. cbn. by rewrite app_nil_r. Qed.

Lemma completed_cons i order :
  completed futures (i :: order)
  = (completed futures [i] + completed futures order)%nat.
Proof. cbn. by destruct (futures !! i) as [[? [?|?]]|]. Qed.

Lemma collector_log_cons count i order :
  collector_log futures total_lines count (i :: order)
  = collector_log futures total_lines count [i]
    ++ collector_log futures total_lines (count + completed futures [i]) order.
Proof.
  cbn. destruct (futures !! i) as [[? [?|?]]|]; cbn;
    by rewrite ?Nat.add_0_r, ?Nat.add_1_r.
Qed.

Lemma for_each_collect order m :
  for_each order (collect_future futures total_lines) m =
    (inl (),
     {| files := files m;
        log := log m
               ++ collector_log futures total_lines (processed_count m) order;
        successful_connections :=
          successful_connections m ++ collected futures order;
        moniker_info_list :=
          moniker_info_list m ++ (conn_info <$> collected futures order);
        processed_count := (processed_count m + completed futures order)%nat |}).
Proof.
  revert m. induction order as [|i order IH]; intros m.
  { destruct m. cbn. by rewrite !app_nil_r, Nat.add_0_r. }
  cbn [for_each]. unfold mbind, M_bind.
  rewrite collect_future_run, IH. cbn [files log successful_connections
    moniker_info_list processed_count].
  rewrite (collected_cons i order), (completed_cons i order),
    (collector_log_cons _ i order), fmap_app.
  by rewrite !app_assoc, Nat.add_assoc.
Qed.

Lemma raised_is_logged i line e count order :
  i ∈ order → futures !! i = Some (line, Raise e) →
  (ERROR, ErrorProcessingLine line e)
  ∈ collector_log futures total_lines count order.
Proof.
  intros Hin Hi. revert count.
  induction Hin as [i order|i j order Hin IH]; intros count; cbn.
  - rewrite Hi. left.
  - destruct (futures !! j) as [[? [?|?]]|]; [right| right|]; by apply IH.
Qed.

Lemma elem_of_collected c order :
  c ∈ collected futures order ↔
  ∃ i line, i ∈ order ∧ futures !! i = Some (line, Ok (Some c)).
Proof.
  unfold collected. rewrite list_elem_of_bind. split.
  - intros (i & Hc & Hi). unfold accepted_of in Hc.
    destruct (futures !! i) as [[line [[c'|]|?]]|] eqn:Hf;
      try by apply elem_of_nil in Hc.
    apply list_elem_of_singleton in Hc as ->. by exists i, line.
  - intros (i & line & Hi & Hf). exists i. split; [|done].
    unfold accepted_of. rewrite Hf. left.
Qed.

Lemma collected_perm order1 order2 :
  order1 ≡ₚ order2 → collected futures order1 ≡ₚ collected futures order2.
Proof. intros H. unfold collected. by rewrite H. Qed.

End collector.

Lemma submit_all_lookup nets lines e ml d i :
  submit_all nets lines e ml d !! i
  = (λ line, (line, process_line (nets i) line e ml d)) <$> lines !! i.
Proof. unfold submit_all. apply list_lookup_imap. Qed.

(** [check_nodes] always returns, leaving the files alone. *)
Lemma check_nodes_run nets order lines e ml d m :
  let futures := submit_all nets lines e ml d in
  check_nodes nets order lines e ml d m =
    (inl (),
     {| files := files m;
        log := log m ++ collector_log futures (length lines) 0 order;
        successful_connections := collected futures order;
        moniker_info_list := conn_info <$> collected futures order;
        processed_count := completed futures order |}).
Proof.
  intros futures. unfold check_nodes.
  change (for_each order _)
    with (for_each order (collect_future futures (length lines))).
  unfold mbind, M_bind. cbn.
  rewrite for_each_collect. by destruct m.
Qed.

Lemma elem_of_accepted_records nets lines e ml d c :
  c ∈ accepted_records nets lines e ml d ↔
  ∃ i line, lines !! i = Some line
            ∧ process_line (nets i) line e ml d = Ok (Some c).
Proof.
  unfold accepted_records. rewrite elem_of_collected. split.
  - intros (i & line & _ & Hf). rewrite submit_all_lookup in Hf.
    destruct (lines !! i) as [line'|] eqn:Hi; [|done].
    injection Hf as -> Hf. by exists i, line.
  - intros (i & line & Hi & Hp). exists i, line. split.
    + apply elem_of_seq. apply lookup_lt_Some in Hi. lia.
    + by rewrite submit_all_lookup, Hi; cbn; rewrite Hp.
Qed.

(** What [check_nodes] leaves when every future completes once. *)
Lemma check_nodes_collects nets order lines e ml d m :
  order ≡ₚ seq 0 (length lines) →
  ∃ m',
    check_nodes nets order lines e ml d m = (inl (), m')
    ∧ (∀ i line ex,
         lines !! i = Some line →
         process_line (nets i) line e ml d = Raise ex →
         (ERROR, ErrorProcessingLine line ex) ∈ log m')
    ∧ successful_connections m'
      = collected (submit_all nets lines e ml d) order
    ∧ successful_connections m' ≡ₚ accepted_records nets lines e ml d
    ∧ (∀ c, c ∈ successful_connections m' ↔
            ∃ i line, lines !! i = Some line
                      ∧ process_line (nets i) line e ml d = Ok (Some c)).
Proof.
  intros Hperm. eexists. split; [apply check_nodes_run|]. cbn.
  assert (collected (submit_all nets lines e ml d) order
          ≡ₚ accepted_records nets lines e ml d) as Hacc.
  { by apply collected_perm. }
  split; [|split; [done|split; [done|]]].
  - intros i line ex Hi Hraise.
    apply elem_of_app. right. eapply (raised_is_logged _ _ i).
    + rewrite Hperm. apply elem_of_seq.
      apply lookup_lt_Some in Hi. lia.
    + by rewrite submit_all_lookup, Hi; cbn; rewrite Hraise.
  - intros c. rewrite Hacc. apply elem_of_accepted_records.
Qed.

(** C8. Whatever the tasks do, [check_nodes] returns.  A task that raised is
    logged as an error with its descriptor and contributes no record; the
    records collected are those of the tasks that returned one, each once
    and in completion order. *)
Theorem task_exceptions_are_contained nets order lines e ml d m :
  order ≡ₚ seq 0 (length lines) →
  ∃ m',
    check_nodes nets order lines e ml d m = (inl (), m')
    ∧ (∀ i line ex,
         lines !! i = Some line →
         process_line (nets i) line e ml d = Raise ex →
         (ERROR, ErrorProcessingLine line ex) ∈ log m'
         ∧ accepted_of (submit_all nets lines e ml d) i = [])
    ∧ successful_connections m'
      = collected (submit_all nets lines e ml d) order
    ∧ successful_connections m' ≡ₚ accepted_records nets lines e ml d
    ∧ (∀ c, c ∈ successful_connections m' ↔
            ∃ i line, lines !! i = Some line
                      ∧ process_line (nets i) line e ml d = Ok (Some c))
    ∧ moniker_info_list m' = conn_info <$> successful_connections m'
    ∧ files m' = files m.
Proof.
  intros Hperm.
  destruct (check_nodes_collects nets order lines e ml d m Hperm)
    as (m' & Hrun & Hlog & Hcoll & Hacc & Hin).
  exists m'. split; [done|].
  split; [|split; [done|split; [done|split; [done|]]]].
  - intros i line ex Hi Hraise. split; [by eapply Hlog|].
    unfold accepted_of. by rewrite submit_all_lookup, Hi; cbn; rewrite Hraise.
  - rewrite check_nodes_run in Hrun. by injection Hrun as <-.
Qed.

Lemma task_exceptions_are_contained_witness :
  [2; 0; 1]%nat ≡ₚ seq 0 (length demo_lines)
  ∧ ∃ m',
      check_nodes (λ _, demo_net) [2; 0; 1]%nat demo_lines 1000 None 20
        (boot ∅) = (inl (), m')
      ∧ successful_connections m'
        ≡ₚ accepted_records (λ _, demo_net) demo_lines 1000 None 20.
Proof.
  assert ([2; 0; 1]%nat ≡ₚ seq 0 (length demo_lines)) as Hperm.
  { cbn. transitivity [0; 2; 1]%nat; [apply perm_swap|].
    apply perm_skip, perm_swap. }
  split; [exact Hperm|].
  destruct (task_exceptions_are_contained (λ _, demo_net) [2; 0; 1]%nat
              demo_lines 1000 None 20 (boot ∅) Hperm)
    as (m' & Hrun & _ & _ & Hacc & _).
  by exists m'.
Defined.

Example check_nodes_demo :
  ∃ m', check_nodes (λ _, demo_net) [2; 0; 1]%nat demo_lines 1000 None 20
          (boot ∅) = (inl (), m')
        ∧ (conn_line <$> successful_connections m')
          = ["n1@10.0.0.1:26656"; "n2@10.0.0.2:26656"]
        ∧ log m' = [ (INFO, Processed 1 3);
                     (ERROR, ErrorProcessingLine "n1@10.0.0.1:p2p" ValueError);
                     (INFO, Processed 2 3) ].
Proof. eexists. split; [apply check_nodes_run|]. vm_compute. done. Qed.

(** ** The writers *)

Lemma append_cons a s t : String a s +:+ t = String a (s +:+ t).
Proof. reflexivity. Qed.

Lemma append_nil_r s : s +:+ EmptyString = s.
Proof. induction s as [|a s IH]; [done|by rewrite append_cons, IH]. Qed.

Lemma append_assoc s1 s2 s3 : (s1 +:+ s2) +:+ s3 = s1 +:+ s2 +:+ s3.
Proof. induction s1 as [|a s1 IH]; [done|by rewrite !append_cons, IH]. Qed.

Lemma entries_text_false l :
  entries_text false l = if l is [] then EmptyString else "," +:+ join "," l.
Proof.
  induction l as [|x l IH]; [done|].
  cbn [entries_text]. rewrite IH. destruct l; cbn.
  - by rewrite append_nil_r.
  - done.
Qed.

(** The flag makes the loop write the entries joined by commas. *)
Lemma entries_text_join l : entries_text true l = join "," l.
Proof.
  destruct l as [|x l]; [done|].
  cbn [entries_text]. rewrite entries_text_false.
  destruct l; cbn; [by rewrite append_nil_r | done].
Qed.

Lemma file_write_run path s buf m :
  files m !! path = Some (Text buf) →
  file_write path s m = (inl (), upd_files (<[path := Text (buf +:+ s)]>) m).
Proof.
  intros H. unfold file_write, set_files, modify, upd_files. by rewrite H.
Qed.

Lemma write_ids_run path first conns buf m :
  files m !! path = Some (Text buf) →
  write_ids path first conns m =
    (inl (),
     upd_files
       (<[path := Text (buf +:+ entries_text first
                          (node_id ∘ conn_info <$> conns))]>) m).
Proof.
  revert first buf m. induction conns as [|c conns IH]; intros first buf m H.
  - cbn. rewrite append_nil_r. unfold upd_files.
    rewrite insert_id by done. by destruct m.
  - cbn [write_ids]. unfold mbind at 1, M_bind.
    assert ((if first then file_write path (node_id (conn_info c))
             else file_write path ("," +:+ node_id (conn_info c))) m
            = (inl (),
               upd_files
                 (<[path := Text (buf +:+ (if first
                       then node_id (conn_info c)
                       else "," +:+ node_id (conn_info c)))]>) m)) as ->.
    { destruct first; by apply file_write_run. }
    erewrite IH; [|cbn; apply lookup_insert_eq].
    unfold upd_files. cbn. by rewrite insert_insert_eq, append_assoc.
Qed.

Lemma write_connections_run path first conns buf m :
  files m !! path = Some (Text buf) →
  write_connections path first conns m =
    (inl (),
     upd_log (λ l, l ++ saved_log conns)
       (upd_files
          (<[path := Text (buf +:+ entries_text first (conn_line <$> conns))]>)
          m)).
Proof.
  revert first buf m. induction conns as [|c conns IH]; intros first buf m H.
  - cbn. rewrite append_nil_r. unfold upd_files, upd_log. cbn.
    rewrite insert_id, app_nil_r by done. by destruct m.
  - cbn [write_connections]. unfold mbind at 1, M_bind. cbn [logging modify].
    unfold mbind at 1, M_bind.
    set (m1 := upd_log _ m).
    assert (files m1 !! path = Some (Text buf)) as H1 by done.
    assert ((if first then file_write path (conn_line c)
             else file_write path ("," +:+ conn_line c)) m1
            = (inl (),
               upd_files
                 (<[path := Text (buf +:+ (if first then conn_line c
                                           else "," +:+ conn_line c))]>) m1))
      as ->.
    { destruct first; by apply file_write_run. }
    erewrite IH; [|cbn; apply lookup_insert_eq].
    unfold upd_files, upd_log, saved_log. cbn.
    by rewrite insert_insert_eq, append_assoc, <-app_assoc.
Qed.

Lemma save_ids_only_run conns output_filename m :
  save_ids_only conns output_filename m =
    (inl (),
     upd_log (λ l, l ++ [(INFO, SavedIds (ids_only_filename output_filename))])
       (upd_files
          (<[ids_only_filename output_filename
             := Text (join "," (ids_of conns))]>) m)).
Proof.
  unfold save_ids_only, open_w, set_files. unfold mbind, M_bind.
  cbn [modify].
  erewrite write_ids_run; [|cbn; apply lookup_insert_eq].
  cbn. unfold upd_log, upd_files. cbn.
  by rewrite insert_insert_eq, entries_text_join.
Qed.

Lemma save_top_connections_run output_filename top_n m :
  let top := top_connections (successful_connections m) top_n in
  save_top_connections output_filename top_n m =
    (inl (length top),
     {| files :=
          <[ids_only_filename output_filename := Text (join "," (ids_of top))]>
            (<[output_filename := Text (join "," (lines_of top))]> (files m));
        log := log m ++ saved_log top
                 ++ [(INFO, SavedTop top_n output_filename);
                     (INFO, SavedIds (ids_only_filename output_filename))];
        successful_connections :=
          sort_desc conn_height (successful_connections m);
        moniker_info_list := moniker_info_list m;
        processed_count := processed_count m |}).
Proof.
  intros top. unfold save_top_connections, open_w, set_files.
  unfold mbind, M_bind. cbn [modify set_successful_connections gets logging].
  erewrite write_connections_run; [|cbn; apply lookup_insert_eq].
  cbn [upd_log upd_files upd_successful_connections files log
       successful_connections moniker_info_list processed_count].
  rewrite save_ids_only_run.
  cbn [upd_log upd_files upd_successful_connections files log
       successful_connections moniker_info_list processed_count mret M_ret].
  fold (top_connections (successful_connections m) top_n). fold top.
  unfold mret, M_ret, upd_log, upd_files, upd_successful_connections, lines_of.
  cbn [files log successful_connections moniker_info_list processed_count].
  change (EmptyString +:+ ?x) with x.
  by rewrite insert_insert_eq, entries_text_join, <-!app_assoc.
Qed.

(** C2. [save_top_connections] sorts the list of records in place into
    descending order of height, records of equal height keeping the order
    they were accepted in, and saves and counts the first [top_n] of them:
    min(top_n, number of records) records, all of them when [top_n] is not
    smaller than their number. *)
Theorem selection_is_the_top_n output_filename top_n m :
  0 ≤ top_n →
  ∃ m' (top : list connection),
    save_top_connections output_filename top_n m = (inl (length top), m')
    ∧ successful_connections m' ≡ₚ successful_connections m
    ∧ StronglySorted (desc conn_height) (successful_connections m')
    ∧ (∀ h, filter (λ c, conn_height c = h) (successful_connections m')
            = filter (λ c, conn_height c = h) (successful_connections m))
    ∧ top = take (Z.to_nat top_n) (successful_connections m')
    ∧ length top
      = (Z.to_nat top_n `min` length (successful_connections m))%nat
    ∧ ((length (successful_connections m) ≤ Z.to_nat top_n)%nat →
       top = successful_connections m')
    ∧ files m'
      = <[ids_only_filename output_filename := Text (join "," (ids_of top))]>
          (<[output_filename := Text (join "," (lines_of top))]> (files m)).
Proof.
  intros Hn. eexists _, _. split; [apply save_top_connections_run|]. cbn.
  unfold top_connections. rewrite slice_to_nonneg by done.
  split; [apply sort_desc_perm|].
  split; [apply sort_desc_sorted|].
  split; [intros h; apply sort_desc_stable|].
  split; [done|].
  split; [by rewrite length_take, sort_desc_length|].
  split; [|done].
  intros Hle. apply take_ge. by rewrite sort_desc_length.
Qed.

Example save_top_connections_demo :
  ∃ m', save_top_connections "top.txt" 2 demo_machine = (inl 2%nat, m')
        ∧ files m' !! "top.txt"
          = Some (Text "b@10.0.0.9:26656,a@10.0.0.9:26656")
        ∧ files m' !! "top_ids_only.txt" = Some (Text "B,A")
        ∧ lines_of (successful_connections m')
          = ["b@10.0.0.9:26656"; "a@10.0.0.9:26656"; "c@10.0.0.9:26656"].
Proof.
  eexists. split; [apply save_top_connections_run|]. by vm_compute.
Qed.

Lemma selection_is_the_top_n_witness :
  0 ≤ 2
  ∧ ∃ m' (top : list connection),
      save_top_connections "top.txt" 2 demo_machine = (inl (length top), m')
      ∧ length top
        = (Z.to_nat 2 `min` length (successful_connections demo_machine))%nat.
Proof.
  assert (0 ≤ 2) as Hn by done.
  split; [exact Hn|].
  destruct (selection_is_the_top_n "top.txt" 2 demo_machine Hn)
    as (m' & top & Hrun & _ & _ & _ & _ & Hlen & _).
  by exists m', top.
Defined.

(** C6. [save_top_connections] writes the lines of the selected records,
    joined by commas, to the output file, and then the node ids of the same
    records, joined by commas, to the ids-only file: as many ids as lines,
    the i-th id being the reported id of the record of the i-th line.  When
    the selection is not empty and no id holds a comma, splitting the
    ids-only file at the commas gives these ids back. *)
Theorem ids_only_matches_primary output_filename top_n m :
  ∃ m' (top : list connection),
    save_top_connections output_filename top_n m = (inl (length top), m')
    ∧ top = top_connections (successful_connections m) top_n
    ∧ files m'
      = <[ids_only_filename output_filename := Text (join "," (ids_of top))]>
          (<[output_filename := Text (join "," (lines_of top))]> (files m))
    ∧ files m' !! ids_only_filename output_filename
      = Some (Text (join "," (ids_of top)))
    ∧ length (ids_of top) = length (lines_of top)
    ∧ zip (lines_of top) (ids_of top)
      = (λ c, (conn_line c, node_id (conn_info c))) <$> top
    ∧ (top ≠ [] →
       Forall (λ id, contains "," id = false) (ids_of top) →
       ∃ text,
         files m' !! ids_only_filename output_filename = Some (Text text)
         ∧ split "," text = ids_of top).
Proof.
  eexists _, _. split; [apply save_top_connections_run|]. cbn.
  split; [done|]. split; [done|].
  split; [apply lookup_insert_eq|].
  unfold ids_of, lines_of. split; [by rewrite !length_fmap|].
  split.
  - induction (top_connections (successful_connections m) top_n)
      as [|c l IH]; [done|].
    cbn. by rewrite IH.
  - intros Hne Hids. eexists. split; [apply lookup_insert_eq|].
    apply split_join; [|done].
    by destruct (top_connections (successful_connections m) top_n).
Qed.

Lemma ids_only_matches_primary_witness :
  ∃ m' text,
    save_top_connections "top.txt" 2 demo_machine = (inl 2%nat, m')
    ∧ files m' !! "top_ids_only.txt" = Some (Text text)
    ∧ split "," text = ["B"; "A"].
Proof.
  destruct (ids_only_matches_primary "top.txt" 2 demo_machine)
    as (m' & top & Hrun & -> & _ & _ & _ & _ & Hback).
  destruct Hback as (text & Hfile & Hsplit).
  - by vm_compute.
  - vm_compute. by repeat constructor.
  - by exists m', text.
Defined.

(** C9. For an output file name without [.txt] the ids-only file name is
    the output file name: the ids are written over the lines, and the
    output file ends up holding the ids. *)
Theorem ids_only_overwrites_primary output_filename top_n m :
  contains ".txt" output_filename = false →
  ids_only_filename output_filename = output_filename
  ∧ ∃ m' (top : list connection),
      save_top_connections output_filename top_n m = (inl (length top), m')
      ∧ top = top_connections (successful_connections m) top_n
      ∧ files m'
        = <[output_filename := Text (join "," (ids_of top))]>
            (<[output_filename := Text (join "," (lines_of top))]> (files m))
      ∧ files m' !! output_filename = Some (Text (join "," (ids_of top))).
Proof.
  intros Hc.
  assert (ids_only_filename output_filename = output_filename) as Hid.
  { by apply replace_absent. }
  split; [done|].
  eexists _, _. split; [apply save_top_connections_run|]. cbn.
  rewrite Hid. split; [done|]. split; [done|]. apply lookup_insert_eq.
Qed.

Lemma ids_only_overwrites_primary_witness :
  contains ".txt" "top" = false
  ∧ ids_only_filename "top" = "top"
  ∧ ∃ m' (top : list connection),
      save_top_connections "top" 2 demo_machine = (inl (length top), m')
      ∧ files m' !! "top" = Some (Text (join "," (ids_of top))).
Proof.
  assert (contains ".txt" "top" = false) as Hc by reflexivity.
  split; [exact Hc|].
  destruct (ids_only_overwrites_primary "top" 2 demo_machine Hc)
    as (Hid & m' & top & Hrun & _ & _ & Hfile).
  split; [exact Hid|]. by exists m', top.
Defined.

Example ids_only_overwrites_demo :
  ∃ m', save_top_connections "top" 2 demo_machine = (inl 2%nat, m')
        ∧ files m' !! "top" = Some (Text "B,A").
Proof.
  eexists. split; [apply save_top_connections_run|]. by vm_compute.
Qed.

(** ** Evaluation and saving *)

Lemma evaluate_and_save_run w order lines e ml d output_filename top_n
    (json_format : bool) m :
  let acc := collected (submit_all (peer_net w) lines e ml d) order in
  let top := top_connections acc top_n in
  let saved :=
    <[ids_only_filename output_filename := Text (join "," (ids_of top))]>
      (<[output_filename := Text (join "," (lines_of top))]> (files m)) in
  ∃ lg,
    evaluate_and_save w order lines e ml d output_filename top_n json_format m
    = (inl (length acc, length top),
       {| files :=
            if json_format
            then <[moniker_filename output_filename
                   := Json (conn_info <$> acc)]> saved
            else saved;
          log := lg;
          successful_connections := sort_desc conn_height acc;
          moniker_info_list := conn_info <$> acc;
          processed_count :=
            completed (submit_all (peer_net w) lines e ml d) order |}).
Proof.
  intros acc top saved. unfold evaluate_and_save.
  unfold mbind at 1, M_bind. rewrite check_nodes_run.
  unfold mbind at 1, M_bind. cbn [gets successful_connections].
  unfold mbind at 1, M_bind. rewrite save_top_connections_run.
  cbn [successful_connections]. fold acc. fold top.
  destruct json_format.
  - eexists. unfold save_moniker_info, set_files, logging, modify.
    unfold mbind, M_bind, mret, M_ret, upd_files, upd_log. cbn.
    reflexivity.
  - eexists. unfold mbind, M_bind, mret, M_ret. cbn. reflexivity.
Qed.

(** C7. When the metadata is asked for, the file written last holds one
    entry for each accepted record, whatever [top_n] is: the entries are
    the dictionaries of the accepted records, their number is
    [matched_nodes], while [saved_nodes] is min(top_n, matched_nodes). *)
Theorem metadata_lists_every_accepted_record w order lines e ml d
    output_filename top_n m :
  order ≡ₚ seq 0 (length lines) →
  ∃ m' matched_nodes saved_nodes doc,
    evaluate_and_save w order lines e ml d output_filename top_n true m
    = (inl (matched_nodes, saved_nodes), m')
    ∧ files m' !! moniker_filename output_filename = Some (Json doc)
    ∧ doc ≡ₚ conn_info <$> accepted_records (peer_net w) lines e ml d
    ∧ doc ≡ₚ conn_info <$> successful_connections m'
    ∧ length doc = matched_nodes
    ∧ matched_nodes = length (accepted_records (peer_net w) lines e ml d)
    ∧ (0 ≤ top_n → saved_nodes = (Z.to_nat top_n `min` matched_nodes)%nat).
Proof.
  intros Hperm.
  destruct (evaluate_and_save_run w order lines e ml d output_filename top_n
              true m) as [lg Hrun].
  eexists _, _, _, _. split; [exact Hrun|]. cbn.
  assert (collected (submit_all (peer_net w) lines e ml d) order
          ≡ₚ accepted_records (peer_net w) lines e ml d) as Hacc.
  { by apply collected_perm. }
  split; [apply lookup_insert_eq|].
  split; [by rewrite Hacc|].
  split; [by rewrite sort_desc_perm|].
  split; [by rewrite length_fmap|].
  split; [by rewrite Hacc|].
  intros Hn. unfold top_connections.
  by rewrite slice_to_nonneg, length_take, sort_desc_length.
Qed.

(** C10. The metadata file holds the dictionaries in the order the records
    were collected, which is the order the tasks completed in.  The sort of
    [save_top_connections] reorders the list of connections and leaves the
    list of dictionaries as it was; there are runs in which the two orders
    differ. *)
Theorem metadata_in_completion_order w order lines e ml d output_filename
    top_n m :
  (∃ m' counts,
     evaluate_and_save w order lines e ml d output_filename top_n true m
     = (inl counts, m')
     ∧ files m' !! moniker_filename output_filename
       = Some (Json (conn_info <$>
                       collected (submit_all (peer_net w) lines e ml d) order))
     ∧ successful_connections m'
       = sort_desc conn_height
           (collected (submit_all (peer_net w) lines e ml d) order))
  ∧ (∃ m' n,
       save_top_connections output_filename top_n m = (inl n, m')
       ∧ moniker_info_list m' = moniker_info_list m
       ∧ successful_connections m'
         = sort_desc conn_height (successful_connections m))
  ∧ (∃ m' counts doc,
       evaluate_and_save demo_world [2; 0; 1]%nat
         ["n2@10.0.0.2:26656"; "n1@10.0.0.1:26656"; "n3@10.0.0.3:26656"]
         1000 None 20 "top.txt" 1 true (boot ∅) = (inl counts, m')
       ∧ files m' !! "top_moniker_objs.json" = Some (Json doc)
       ∧ moniker <$> doc = ["bob"; "alice"]
       ∧ moniker ∘ conn_info <$> successful_connections m' = ["alice"; "bob"]
       ∧ doc ≠ conn_info <$> successful_connections m').
Proof.
  split; [|split].
  - destruct (evaluate_and_save_run w order lines e ml d output_filename
                top_n true m) as [lg Hrun].
    eexists _, _. split; [exact Hrun|]. cbn.
    split; [apply lookup_insert_eq|done].
  - eexists _, _. split; [apply save_top_connections_run|]. done.
  - destruct (evaluate_and_save_run demo_world [2; 0; 1]%nat
                ["n2@10.0.0.2:26656"; "n1@10.0.0.1:26656";
                 "n3@10.0.0.3:26656"]
                1000 None 20 "top.txt" 1 true (boot ∅)) as [lg Hrun].
    eexists _, _, _. split; [exact Hrun|]. cbn [files successful_connections].
    split; [by vm_compute|]. by vm_compute.
Qed.

Lemma metadata_lists_every_accepted_record_witness :
  [2; 0; 1]%nat ≡ₚ seq 0 (length demo_lines)
  ∧ ∃ m' matched_nodes saved_nodes doc,
      evaluate_and_save demo_world [2; 0; 1]%nat demo_lines 1000 None 20
        "top.txt" 1 true (boot ∅) = (inl (matched_nodes, saved_nodes), m')
      ∧ files m' !! moniker_filename "top.txt" = Some (Json doc)
      ∧ length doc = matched_nodes
      ∧ matched_nodes
        = length (accepted_records (peer_net demo_world) demo_lines 1000
                    None 20).
Proof.
  assert ([2; 0; 1]%nat ≡ₚ seq 0 (length demo_lines)) as Hperm.
  { cbn. transitivity [0; 2; 1]%nat; [apply perm_swap|].
    apply perm_skip, perm_swap. }
  split; [exact Hperm|].
  destruct (metadata_lists_every_accepted_record demo_world [2; 0; 1]%nat
              demo_lines 1000 None 20 "top.txt" 1 (boot ∅) Hperm)
    as (m' & matched & saved & doc & Hrun & Hfile & _ & _ & Hlen & Hm & _).
  by exists m', matched, saved, doc.
Defined.

Example metadata_demo :
  ∃ m' doc,
    evaluate_and_save demo_world [2; 0; 1]%nat demo_lines 1000 None 20
      "top.txt" 1 true (boot ∅) = (inl (2, 1)%nat, m')
    ∧ files m' !! "top_moniker_objs.json" = Some (Json doc)
    ∧ full_peer <$> doc = ["aa11@10.0.0.1:26656"; "bb22@10.0.0.2:26656"]
    ∧ files m' !! "top.txt" = Some (Text "n1@10.0.0.1:26656")
    ∧ files m' !! "top_ids_only.txt" = Some (Text "aa11").
Proof.
  destruct (evaluate_and_save_run demo_world [2; 0; 1]%nat demo_lines 1000
              None 20 "top.txt" 1 true (boot ∅)) as [lg Hrun].
  eexists _, _. split; [exact Hrun|]. by vm_compute.
Qed.

(** ** Malformed descriptors *)

Lemma process_line_wrong_parts net line e ml d :
  wrong_parts line → process_line net line e ml d = Ok None.
Proof.
  unfold wrong_parts, process_line.
  destruct (split "@" line) as [|id [|hostport [|? ?]]]; try done.
  by destruct (split ":" hostport) as [|ip [|port_s [|? ?]]].
Qed.

Lemma process_line_bad_port net line e ml d :
  bad_port line → process_line net line e ml d = Raise ValueError.
Proof.
  unfold bad_port, process_line, int_port.
  destruct (split "@" line) as [|id [|hostport [|? ?]]]; try done.
  destruct (split ":" hostport) as [|ip [|port_s [|? ?]]]; try done.
  by intros ->.
Qed.

(** The claim as the specification words it fails: a port field that is not
    a number makes [process_line] raise. *)
Lemma malformed_port_is_not_silent :
  ¬ (∀ net line e ml d,
       malformed line → process_line net line e ml d = Ok None).
Proof.
  intros H.
  specialize (H demo_net "n1@10.0.0.1:p2p" 1000 None 5).
  assert (malformed "n1@10.0.0.1:p2p") as Hm by (right; reflexivity).
  apply H in Hm. vm_compute in Hm. discriminate Hm.
Qed.

(** C3, amended. A descriptor with a wrong number of parts makes
    [process_line] return [None] without raising.  Every malformed
    descriptor, a port field that is not a number included, contributes no
    record: [check_nodes] returns, and the records it collected are those of
    the other descriptors. *)
Theorem malformed_descriptor_is_discarded nets order lines e ml d m i line :
  order ≡ₚ seq 0 (length lines) →
  lines !! i = Some line →
  malformed line →
  (wrong_parts line → process_line (nets i) line e ml d = Ok None)
  ∧ ∃ m',
      check_nodes nets order lines e ml d m = (inl (), m')
      ∧ accepted_of (submit_all nets lines e ml d) i = []
      ∧ successful_connections m' ≡ₚ accepted_records nets lines e ml d
      ∧ (∀ c, c ∈ successful_connections m' ↔
              ∃ j line', j ≠ i ∧ lines !! j = Some line'
                         ∧ process_line (nets j) line' e ml d = Ok (Some c)).
Proof.
  intros Hperm Hi Hmal.
  split; [apply process_line_wrong_parts|].
  destruct (check_nodes_collects nets order lines e ml d m Hperm)
    as (m' & Hrun & _ & _ & Hacc & Hin).
  exists m'. split; [done|].
  assert (∀ c, process_line (nets i) line e ml d ≠ Ok (Some c)) as Hnone.
  { intros c. destruct Hmal as [Hw|Hb].
    - by rewrite process_line_wrong_parts.
    - by rewrite process_line_bad_port. }
  split; [|split; [done|]].
  - unfold accepted_of. rewrite submit_all_lookup, Hi. cbn.
    destruct (process_line (nets i) line e ml d) as [[c|]|] eqn:Hp;
      [by destruct (Hnone c)|done|done].
  - intros c. rewrite Hin. split.
    + intros (j & line' & Hj & Hp). exists j, line'.
      split; [|done]. intros ->. rewrite Hi in Hj. injection Hj as <-.
      by destruct (Hnone c).
    + intros (j & line' & _ & Hj & Hp). by exists j, line'.
Qed.

Lemma malformed_descriptor_is_discarded_witness :
  [2; 0; 1]%nat ≡ₚ seq 0 (length demo_lines)
  ∧ demo_lines !! 0%nat = Some "n1@10.0.0.1:p2p"
  ∧ malformed "n1@10.0.0.1:p2p"
  ∧ ∃ m',
      check_nodes (λ _, demo_net) [2; 0; 1]%nat demo_lines 1000 None 20
        (boot ∅) = (inl (), m')
      ∧ accepted_of (submit_all (λ _, demo_net) demo_lines 1000 None 20) 0 = [].
Proof.
  assert ([2; 0; 1]%nat ≡ₚ seq 0 (length demo_lines)) as Hperm.
  { cbn. transitivity [0; 2; 1]%nat; [apply perm_swap|].
    apply perm_skip, perm_swap. }
  assert (demo_lines !! 0%nat = Some "n1@10.0.0.1:p2p") as Hi by reflexivity.
  assert (malformed "n1@10.0.0.1:p2p") as Hm by (right; reflexivity).
  split; [exact Hperm|]. split; [exact Hi|]. split; [exact Hm|].
  destruct (malformed_descriptor_is_discarded (λ _, demo_net) [2; 0; 1]%nat
              demo_lines 1000 None 20 (boot ∅) 0%nat "n1@10.0.0.1:p2p"
              Hperm Hi Hm)
    as (_ & m' & Hrun & Hnone & _).
  by exists m'.
Defined.

(** ** The script *)

Lemma bind_ok {A B} (c : M A) (f : A → M B) m a m1 r :
  c m = (inl a, m1) → f a m1 = r → (c ≫= f) m = r.
Proof. intros Hc Hf. unfold mbind, M_bind. by rewrite Hc. Qed.

Lemma try_except_ok {A} (body : M A) handler m a m1 :
  body m = (inl a, m1) → try_except body handler m = (inl a, m1).
Proof. intros H. unfold try_except. by rewrite H. Qed.

(** A run whose arguments parse, whose expected height is fetched and whose
    peers file can be read: the descriptors are the parts of the stripped
    text between commas, they are evaluated and saved, and the process ends
    with status 0. *)
Lemma main_with_peers_file w order a0 rpc_url file tn out js ds rest
    top_n d ml e text fs :
  int tn = Some top_n → int ds = Some d → max_latency_of rest = Some ml →
  on_status_200 (rpc_status w (rpc_url +:+ "/status")) = Ok (Some e) →
  file ≠ EmptyString → read_file w file = Ok text →
  ∃ m' m1 counts,
    run_script w order (a0 :: rpc_url :: file :: tn :: out :: js :: ds :: rest)
      fs = (0, m')
    ∧ evaluate_and_save w order (split "," (strip text)) e ml d out top_n
        (bool_decide (lower js = "true"))
        (upd_log (λ _, boot_log rpc_url e) (boot fs)) = (inl counts, m1)
    ∧ files m' = files m1
    ∧ moniker_info_list m' = moniker_info_list m1
    ∧ successful_connections m' = successful_connections m1
    ∧ log m' = log m1 ++ [ (INFO, ScriptRunTime);
                           (INFO, TotalMatched counts.1);
                           (INFO, TotalSaved counts.2);
                           (INFO, PeersFetchedFrom file);
                           (INFO, Completed) ].
Proof.
  intros Htn Hds Hml He Hfile Hread.
  destruct (evaluate_and_save_run w order (split "," (strip text)) e ml d out
              top_n (bool_decide (lower js = "true"))
              (upd_log (λ _, boot_log rpc_url e) (boot fs))) as [lg Hrun].
  match type of Hrun with _ = (inl ?c, ?m) =>
    set (counts := c) in *; set (m1 := m) in *
  end.
  clearbody m1.
  set (argv := a0 :: rpc_url :: file :: tn :: out :: js :: ds :: rest).
  assert (∃ m', main w order argv (boot fs) = (inl (), m')
                ∧ files m' = files m1
                ∧ moniker_info_list m' = moniker_info_list m1
                ∧ successful_connections m' = successful_connections m1
                ∧ log m' = log m1 ++ [ (INFO, ScriptRunTime);
                                       (INFO, TotalMatched counts.1);
                                       (INFO, TotalSaved counts.2);
                                       (INFO, PeersFetchedFrom file);
                                       (INFO, Completed) ])
    as (m' & Hmain & Hm').
  { eexists. split.
    - unfold main. eapply try_except_ok.
      eapply bind_ok; [reflexivity|].
      eapply bind_ok; [reflexivity|].
      eapply bind_ok.
      { eapply bind_ok; [reflexivity|]. unfold int_arg. by rewrite Htn. }
      eapply bind_ok; [reflexivity|].
      eapply bind_ok; [reflexivity|]. cbv zeta.
      eapply bind_ok.
      { eapply bind_ok; [reflexivity|]. unfold int_arg. by rewrite Hds. }
      eapply (bind_ok _ _ _ ml).
      { subst argv. destruct rest as [|s rest]; cbn in Hml |- *.
        - by injection Hml as <-.
        - destruct (int s) as [n|] eqn:Hs; cbn in Hml; [|done].
          injection Hml as <-.
          eapply bind_ok; [|reflexivity].
          eapply bind_ok; [reflexivity|]. unfold int_arg. by rewrite Hs. }
      eapply bind_ok.
      { unfold fetch_expected_height. rewrite He.
        eapply bind_ok; reflexivity. }
      cbv iota beta.
      eapply bind_ok; [reflexivity|].
      eapply bind_ok.
      { rewrite (bool_decide_eq_true_2 _ Hfile).
        eapply bind_ok.
        { unfold parse_file. rewrite Hread. reflexivity. }
        rewrite (bool_decide_eq_false_2 _ (split_nonempty "," (strip text))).
        reflexivity. }
      cbv iota beta.
      eapply bind_ok; [exact Hrun|].
      eapply bind_ok; [reflexivity|].
      eapply bind_ok; [reflexivity|].
      eapply bind_ok; [reflexivity|].
      eapply bind_ok; [reflexivity|].
      reflexivity.
    - cbn. by rewrite <-!app_assoc. }
  exists m', m1, counts. unfold run_script. rewrite Hmain. by destruct Hm'.
Qed.

(** ** An empty peers file *)

(** [split] never gives an empty list, so a peers file that can be read
    always gives at least one descriptor, be it the empty string. *)
Lemma parse_file_readable w file_path text m :
  read_file w file_path = Ok text →
  parse_file w file_path m = (inl (split "," (strip text)), m)
  ∧ split "," (strip text) ≠ [].
Proof.
  intros H. unfold parse_file. rewrite H. split; [done|].
  apply split_nonempty.
Qed.

Lemma parse_file_unreadable w file_path m :
  read_file w file_path = Raise IOError →
  parse_file w file_path m
  = (inl [], upd_log (λ l, l ++ [(ERROR, FailedReadFile file_path)]) m).
Proof. intros H. unfold parse_file. by rewrite H. Qed.

(** The sibling paths: a peers file that cannot be read, and a reference
    node without peers, end the run with status 1 before any evaluation. *)
Example unreadable_peers_file_is_fatal :
  let out := run_script demo_world [] (demo_argv "missing.txt") ∅ in
  out.1 = 1
  ∧ files out.2 = ∅
  ∧ log out.2 = [ (INFO, ExpectedHeightFetched "http://rpc" 1000);
                  (INFO, ExpectedHeightIs 1000);
                  (ERROR, FailedReadFile "missing.txt");
                  (ERROR, ExitNoPeersFromFile "missing.txt") ].
Proof. by vm_compute. Qed.

Example no_peers_from_rpc_is_fatal :
  let out := run_script lonely_world [] (demo_argv EmptyString) ∅ in
  out.1 = 1
  ∧ files out.2 = ∅
  ∧ log out.2 = [ (INFO, ExpectedHeightFetched "http://rpc" 1000);
                  (INFO, ExpectedHeightIs 1000);
                  (ERROR, ExitNoPeersFromRpc "http://rpc") ].
Proof. by vm_compute. Qed.

(** C4, on the code. A peers file that is empty, or holds white space only,
    gives the one descriptor [EmptyString]: the guard on an empty list of descriptors
    does not fire, the run evaluates that descriptor, writes empty output
    files and ends with status 0. *)
Theorem empty_peers_file_is_not_fatal :
  let empty := run_script demo_world [0%nat] (demo_argv "empty.txt") ∅ in
  let blank := run_script demo_world [0%nat] (demo_argv "blank.txt") ∅ in
  read_file demo_world "empty.txt" = Ok EmptyString
  ∧ read_file demo_world "blank.txt" = Ok (" " +:+ newline)
  ∧ (∀ m, parse_file demo_world "empty.txt" m = (inl [EmptyString], m))
  ∧ (∀ m, parse_file demo_world "blank.txt" m = (inl [EmptyString], m))
  ∧ empty.1 = 0 ∧ blank.1 = 0
  ∧ files empty.2 !! "top.txt" = Some (Text EmptyString)
  ∧ files empty.2 !! "top_ids_only.txt" = Some (Text EmptyString)
  ∧ log empty.2 = [ (INFO, ExpectedHeightFetched "http://rpc" 1000);
                    (INFO, ExpectedHeightIs 1000);
                    (INFO, Processed 1 1);
                    (INFO, SavedTop 1 "top.txt");
                    (INFO, SavedIds "top_ids_only.txt");
                    (INFO, ScriptRunTime);
                    (INFO, TotalMatched 0);
                    (INFO, TotalSaved 0);
                    (INFO, PeersFetchedFrom "empty.txt");
                    (INFO, Completed) ]
  ∧ log blank.2 = [ (INFO, ExpectedHeightFetched "http://rpc" 1000);
                    (INFO, ExpectedHeightIs 1000);
                    (INFO, Processed 1 1);
                    (INFO, SavedTop 1 "top.txt");
                    (INFO, SavedIds "top_ids_only.txt");
                    (INFO, ScriptRunTime);
                    (INFO, TotalMatched 0);
                    (INFO, TotalSaved 0);
                    (INFO, PeersFetchedFrom "blank.txt");
                    (INFO, Completed) ].
Proof. by vm_compute. Qed.

(** The same for every world and every peers file that can be read: the
    run ends with status 0, whatever the file holds. *)
Lemma readable_peers_file_exit_status w order a0 rpc_url file tn out js ds
    rest top_n d ml e text fs :
  int tn = Some top_n → int ds = Some d → max_latency_of rest = Some ml →
  on_status_200 (rpc_status w (rpc_url +:+ "/status")) = Ok (Some e) →
  file ≠ EmptyString → read_file w file = Ok text →
  (run_script w order (a0 :: rpc_url :: file :: tn :: out :: js :: ds :: rest)
     fs).1 = 0.
Proof.
  intros Htn Hds Hml He Hfile Hread.
  destruct (main_with_peers_file w order a0 rpc_url file tn out js ds rest
              top_n d ml e text fs Htn Hds Hml He Hfile Hread)
    as (m' & _ & _ & -> & _).
  done.
Qed.

(** A whole run of the script on [peers.txt]: two peers are accepted, the
    higher one is saved, and the metadata lists both in completion order. *)
Example run_script_demo :
  let out :=
    run_script demo_world [2; 0; 1]%nat
      ["peers_checker.py"; "http://rpc"; "peers.txt"; "1"; "top.txt"; "True";
       "20"; "100"] ∅ in
  out.1 = 0
  ∧ files out.2 !! "top.txt" = Some (Text "n1@10.0.0.1:26656")
  ∧ files out.2 !! "top_ids_only.txt" = Some (Text "aa11")
  ∧ (∃ doc, files out.2 !! "top_moniker_objs.json" = Some (Json doc)
            ∧ moniker <$> doc = ["bob"; "alice"])
  ∧ conn_height <$> successful_connections out.2 = [1003; 990].
Proof.
  vm_compute. repeat split; try done. by eexists.
Qed.

(** * Further properties of the code *)

(** ** Splitting and joining *)

Lemma join_cons_char sep c w ws :
  join sep (String c w :: ws) = String c (join sep (w :: ws)).
Proof. by destruct ws. Qed.

(** Joining the parts of a split gives the string back. *)
Lemma join_split sep s : join (String sep EmptyString) (split sep s) = s.
Proof.
  induction s as [|c s IH]; [done|].
  cbn [split]. destruct (ascii_eqb c sep) eqn:Hc.
  - apply Ascii.eqb_eq in Hc as ->.
    pose proof (split_nonempty sep s) as Hne.
    destruct (split sep s) as [|w ws]; [done|].
    cbn [join] in *. by rewrite IH.
  - pose proof (split_nonempty sep s) as Hne.
    destruct (split sep s) as [|w ws]; [done|].
    by rewrite join_cons_char, IH.
Qed.

Lemma split_two sep s a b :
  split sep s = [a; b] → s = a +:+ String sep b.
Proof. intros H. by rewrite <-(join_split sep s), H. Qed.

(** No part of a split holds the separator. *)
Lemma split_parts_free sep s :
  Forall (λ p, contains (String sep EmptyString) p = false) (split sep s).
Proof.
  induction s as [|c s IH]; [by repeat constructor|].
  cbn [split]. destruct (ascii_eqb c sep) eqn:Hc.
  - by constructor.
  - pose proof (split_nonempty sep s) as Hne.
    destruct (split sep s) as [|w ws]; [done|].
    apply Forall_cons in IH as [Hw Hws]. constructor; [|done].
    cbn [contains startswith]. unfold ascii_eqb in *.
    by rewrite (Ascii.eqb_sym sep c), Hc, Hw.
Qed.

(** The number of parts: one more than the separators. *)
Lemma split_append_length sep s t :
  length (split sep (s +:+ String sep t))
  = (length (split sep s) + length (split sep t))%nat.
Proof.
  induction s as [|c s IH].
  - change (EmptyString +:+ ?x) with x. cbn [split].
    unfold ascii_eqb. by rewrite Ascii.eqb_refl.
  - change (String c s +:+ ?x) with (String c (s +:+ x)).
    cbn [split]. destruct (ascii_eqb c sep); cbn [length]; [by rewrite IH|].
    pose proof (split_nonempty sep s) as Hs.
    pose proof (split_nonempty sep (s +:+ String sep t)) as Hst.
    destruct (split sep s), (split sep (s +:+ String sep t)); try done;
      cbn [length] in *; lia.
Qed.

Lemma split_contains_length sep s :
  contains (String sep EmptyString) s = true →
  (2 ≤ length (split sep s))%nat.
Proof.
  induction s as [|c s IH]; [done|].
  cbn [contains startswith split]. unfold ascii_eqb.
  rewrite andb_true_r, (Ascii.eqb_sym sep c).
  pose proof (split_nonempty sep s) as Hs.
  destruct (Ascii.eqb c sep); cbn [orb].
  - intros _. destruct (split sep s); [done|]. cbn. lia.
  - intros H. apply IH in H. destruct (split sep s); cbn in *; lia.
Qed.

Lemma startswith_append p s t :
  startswith p s = true → startswith p (s +:+ t) = true.
Proof.
  revert s. induction p as [|a p IH]; intros [|b s]; try done.
  change (String b s +:+ t) with (String b (s +:+ t)).
  cbn [startswith]. intros [-> ?]%andb_true_iff. by rewrite IH.
Qed.

(** What holds no occurrence as a whole holds none in its parts. *)
Lemma contains_append_false p s t :
  contains p (s +:+ t) = false → contains p s = false ∧ contains p t = false.
Proof.
  induction s as [|c s IH].
  - change (EmptyString +:+ t) with t. intros Ht. split; [|done].
    destruct p; [by destruct t|done].
  - change (String c s +:+ t) with (String c (s +:+ t)).
    cbn [contains]. intros [Hs Hc]%orb_false_iff.
    apply IH in Hc as [Hc Ht]. split; [|done].
    rewrite Hc, orb_false_r.
    destruct (startswith p (String c s)) eqn:Hp; [|done].
    pose proof (startswith_append p (String c s) t Hp) as Hp'.
    change (String c s +:+ t) with (String c (s +:+ t)) in Hp'. congruence.
Qed.

Lemma contains_cons_false p c s :
  contains p (String c s) = false → contains p s = false.
Proof. cbn [contains]. by intros [_ ?]%orb_false_iff. Qed.

(** ** The status probe and the evaluation of a descriptor *)

Lemma get_latest_block_height_cases net ip rpc_port :
  get_latest_block_height net ip rpc_port =
    match get_status net (status_url ip rpc_port) with
    | RequestFails => Ok (None, EmptyString, EmptyString)
    | Response code fields =>
        if code =? 200 then
          match fields with
          | Ok (h, mon, nid) => Ok (Some h, mon, nid)
          | Raise RequestException => Ok (None, EmptyString, EmptyString)
          | Raise ex => Raise ex
          end
        else Ok (None, EmptyString, EmptyString)
    end.
Proof.
  unfold get_latest_block_height, except_RequestException, on_status_200.
  destruct (get_status net (status_url ip rpc_port)) as [|code fields];
    [done|].
  destruct (code =? 200); [|done].
  by destruct fields as [[[h mon] nid]|[]].
Qed.


Lemma status_probe_cases_height net ip rpc_port h mon nid :
  get_latest_block_height net ip rpc_port = Ok (Some h, mon, nid) →
  get_status net (status_url ip rpc_port) = Response 200 (Ok (h, mon, nid)).
Proof.
  rewrite get_latest_block_height_cases.
  destruct (get_status net (status_url ip rpc_port)) as [|code fields];
    [done|].
  destruct (Z.eqb_spec code 200) as [->|Hcode]; [|done].
  destruct fields as [[[h' mon'] nid']|ex']; [by intros [= -> -> ->]|].
  by destruct ex'.
Qed.

(** X1. The status probe gives a height exactly when the peer answers 200
    with a body the three fields can be read from.  It gives
    [(None, "", "")] exactly when the request fails, the status code is not
    200, or reading the body fails with a [RequestException]; and it raises
    exactly the other exceptions of reading the body, never a
    [RequestException]. *)
Theorem status_probe_outcomes net ip rpc_port :
  (∀ h mon nid,
     get_latest_block_height net ip rpc_port = Ok (Some h, mon, nid)
     ↔ get_status net (status_url ip rpc_port)
       = Response 200 (Ok (h, mon, nid)))
  ∧ (get_latest_block_height net ip rpc_port
     = Ok (None, EmptyString, EmptyString)
     ↔ get_status net (status_url ip rpc_port) = RequestFails
       ∨ ∃ code fields,
           get_status net (status_url ip rpc_port) = Response code fields
           ∧ (code ≠ 200 ∨ fields = Raise RequestException))
  ∧ (∀ ex,
       get_latest_block_height net ip rpc_port = Raise ex
       ↔ ex ≠ RequestException
         ∧ get_status net (status_url ip rpc_port) = Response 200 (Raise ex))
  ∧ (∀ mon nid,
       get_latest_block_height net ip rpc_port = Ok (None, mon, nid) →
       mon = EmptyString ∧ nid = EmptyString).
Proof.
  rewrite get_latest_block_height_cases.
  destruct (get_status net (status_url ip rpc_port)) as [|code fields].
  { repeat split; try done; firstorder congruence. }
  destruct (Z.eqb_spec code 200) as [->|Hcode].
  - destruct fields as [[[h' mon'] nid']|ex'].
    + repeat split; try done; firstorder congruence.
    + destruct ex'; repeat split; try done;
        try solve [firstorder congruence].
      intros _. right. eexists _, _. split; [reflexivity|by right].
  - repeat split; try done; try solve [firstorder congruence].
    intros _. right. eexists _, _. split; [done|by left].
Qed.

Lemma status_probe_outcomes_witness :
  get_latest_block_height demo_net "10.0.0.1" 26657 = Ok (Some 1003, "alice", "aa11")
  ∧ get_latest_block_height demo_net "10.0.0.3" 26657
    = Ok (None, EmptyString, EmptyString).
Proof.
  split.
  - apply (proj1 (status_probe_outcomes demo_net "10.0.0.1" 26657)).
    vm_compute. reflexivity.
  - apply (proj1 (proj2 (status_probe_outcomes demo_net "10.0.0.3" 26657))).
    left. vm_compute. reflexivity.
Defined.



(** X3. A record comes out of [process_line] only for a descriptor that
    reads [id@ip:port_s], none of the three parts holding a separator of its
    level, with a port field that is a number; the connection to [ip:port]
    opened, and the peer answered the status query on the next port up with
    200.  The record keeps the descriptor as its line, takes host and port
    from it and the height, moniker and id from the answer: its full peer
    is the reported id at that host and port. *)
Theorem accepted_record_anatomy net line e ml d c :
  process_line net line e ml d = Ok (Some c) →
  ∃ id ip port_s port lat h mon nid,
    line = id +:+ "@" +:+ ip +:+ ":" +:+ port_s
    ∧ contains "@" id = false
    ∧ contains "@" ip = false ∧ contains ":" ip = false
    ∧ contains "@" port_s = false ∧ contains ":" port_s = false
    ∧ int port_s = Some port
    ∧ create_connection net ip port = Connected lat
    ∧ get_status net (status_url ip (port + 1))
      = Response 200 (Ok (h, mon, nid))
    ∧ conn_line c = line
    ∧ conn_height c = h
    ∧ conn_info c
      = {| moniker := mon; node_id := nid; ip := ip; port := port;
           full_peer := nid +:+ "@" +:+ ip +:+ ":" +:+ str port;
           latency := int_of_float lat |}.
Proof.
  intros Hc.
  apply process_line_accepted in Hc
    as (id & hostport & ip & port_s & port & lat & h & mon & nid
        & Hat & Hcolon & Hport & Hconn & _ & Hst & _ & ->).
  exists id, ip, port_s, port, lat, h, mon, nid.
  pose proof (split_parts_free "@" line) as Hfree_at.
  rewrite Hat in Hfree_at.
  apply Forall_cons in Hfree_at as [Hid Hhp].
  apply Forall_cons in Hhp as [Hhp _].
  pose proof (split_parts_free ":" hostport) as Hfree_colon.
  rewrite Hcolon in Hfree_colon.
  apply Forall_cons in Hfree_colon as [Hip Hps].
  apply Forall_cons in Hps as [Hps _].
  apply split_two in Hat. apply split_two in Hcolon. subst hostport.
  assert (contains "@" ip = false ∧ contains "@" port_s = false) as [? ?].
  { by apply contains_append_false in Hhp as [? ?%contains_cons_false]. }
  apply status_probe_cases_height in Hst.
  by split_and!.
Qed.

Lemma accepted_record_anatomy_witness :
  ∃ id ip port_s port lat h mon nid,
    "n1@10.0.0.1:26656" = id +:+ "@" +:+ ip +:+ ":" +:+ port_s
    ∧ int port_s = Some port
    ∧ create_connection demo_net ip port = Connected lat
    ∧ get_status demo_net (status_url ip (port + 1))
      = Response 200 (Ok (h, mon, nid)).
Proof.
  destruct (accepted_record_anatomy demo_net "n1@10.0.0.1:26656" 1000
              (Some 50) 5
              (record_of "n1@10.0.0.1:26656" "10.0.0.1" 26656 (41 # 2) 1003
                 "alice" "aa11") eq_refl)
    as (id & ip & port_s & port & lat & h & mon & nid & Hline & _ & _ & _ & _
        & _ & Hport & Hconn & Hst & _).
  by exists id, ip, port_s, port, lat, h, mon, nid.
Defined.

Lemma float_le_int_mono lat m m' :
  float_le_int lat m = true → m ≤ m' → float_le_int lat m' = true.
Proof.
  unfold float_le_int. rewrite !Qle_bool_iff. intros Hl Hm.
  eapply Qle_trans; [exact Hl|]. by rewrite <-Zle_Qle.
Qed.

(** X4. Relaxing the thresholds never loses a peer: a descriptor accepted
    under a height tolerance and a latency bound is accepted, with the same
    record, under any larger tolerance and any bound that is no stricter.
    Under a negative tolerance no descriptor is accepted at all. *)
Theorem relaxing_thresholds_keeps_peers net line e ml ml' d d' :
  (∀ c, process_line net line e ml d = Ok (Some c) →
        d ≤ d' → no_stricter ml ml' →
        process_line net line e ml' d' = Ok (Some c))
  ∧ (d < 0 → ∀ c, process_line net line e ml d ≠ Ok (Some c)).
Proof.
  split.
  - intros c Hc Hd Hml.
    apply process_line_accepted in Hc
      as (id & hostport & ip & port_s & port & lat & h & mon & nid
          & Hat & Hcolon & Hport & Hconn & Hlat & Hst & Hh & ->).
    rewrite (process_line_probed _ _ _ _ _ _ _ _ _ _ _ Hat Hcolon Hport Hconn).
    assert ((if ml' is Some m then float_le_int lat m else true) = true) as ->.
    { destruct ml' as [m'|]; [|done]. destruct ml as [m|]; [|done].
      cbn in Hml. eapply float_le_int_mono; [by apply Hlat|done]. }
    rewrite Hst. cbn.
    by rewrite (proj2 (Z.leb_le _ _) (Z.le_trans _ _ _ Hh Hd)).
  - intros Hd c Hc.
    apply process_line_accepted in Hc
      as (id & hostport & ip & port_s & port & lat & h & mon & nid
          & _ & _ & _ & _ & _ & _ & Hh & _).
    lia.
Qed.

Lemma relaxing_thresholds_keeps_peers_witness :
  process_line demo_net "n1@10.0.0.1:26656" 1000 None 100
  = Ok (Some (record_of "n1@10.0.0.1:26656" "10.0.0.1" 26656 (41 # 2) 1003
                "alice" "aa11"))
  ∧ process_line demo_net "n1@10.0.0.1:26656" 1000 None (-1)
    ≠ Ok (Some (record_of "n1@10.0.0.1:26656" "10.0.0.1" 26656 (41 # 2) 1003
                  "alice" "aa11")).
Proof.
  split.
  - refine (proj1 (relaxing_thresholds_keeps_peers demo_net
              "n1@10.0.0.1:26656" 1000 (Some 50) None 5 100) _ _ _ _).
    + vm_compute. reflexivity.
    + vm_compute. discriminate.
    + exact I.
  - refine (proj2 (relaxing_thresholds_keeps_peers demo_net
              "n1@10.0.0.1:26656" 1000 None None (-1) 0) _ _).
    reflexivity.
Defined.

(** ** The descriptors of the peer-list query *)

Lemma contains_char_append c s t :
  contains (String c EmptyString) (s +:+ t)
  = contains (String c EmptyString) s || contains (String c EmptyString) t.
Proof.
  induction s as [|b s IH]; [done|].
  change (String b s +:+ t) with (String b (s +:+ t)).
  cbn [contains startswith]. rewrite IH, !andb_true_r. by rewrite orb_assoc.
Qed.

(** A character absent from a string is absent from the parts of its
    split. *)
Lemma split_parts_without c sep s :
  contains (String c EmptyString) s = false →
  Forall (λ p, contains (String c EmptyString) p = false) (split sep s).
Proof.
  induction s as [|b s IH]; [by repeat constructor|].
  cbn [contains startswith]. rewrite andb_true_r.
  intros [Hb Hs]%orb_false_iff. specialize (IH Hs).
  cbn [split]. destruct (ascii_eqb b sep); [by constructor|].
  pose proof (split_nonempty sep s) as Hne.
  destruct (split sep s) as [|w ws]; [done|].
  apply Forall_cons in IH as [Hw Hws]. constructor; [|done].
  cbn [contains startswith]. by rewrite andb_true_r, Hb, Hw.
Qed.

Lemma listen_port_free listen_addr :
  contains ":" (listen_port listen_addr) = false
  ∧ (contains "@" listen_addr = false →
     contains "@" (listen_port listen_addr) = false).
Proof.
  unfold listen_port.
  pose proof (split_nonempty ":" listen_addr) as Hne.
  destruct (last (split ":" listen_addr)) as [p|] eqn:Hlast.
  2: { by apply last_None in Hlast. }
  apply last_Some_elem_of in Hlast. split.
  - by eapply (proj1 (Forall_forall _ _) (split_parts_free ":" listen_addr)).
  - intros Hat.
    by eapply (proj1 (Forall_forall _ _)
                 (split_parts_without "@" ":" listen_addr Hat)).
Qed.

(** The two splits of [process_line] on a descriptor [id@ip:port_s] whose
    parts hold no separator of their level. *)
Lemma split_descriptor id ip port_s :
  contains "@" id = false →
  contains "@" ip = false → contains ":" ip = false →
  contains "@" port_s = false → contains ":" port_s = false →
  split "@" (id +:+ "@" +:+ ip +:+ ":" +:+ port_s) = [id; ip +:+ ":" +:+ port_s]
  ∧ split ":" (ip +:+ ":" +:+ port_s) = [ip; port_s].
Proof.
  intros Hid Hip_at Hip Hps_at Hps. split.
  - change ("@" +:+ ?x) with (String "@" x).
    rewrite split_append by done. f_equal. apply split_absent.
    rewrite contains_char_append, Hip_at.
    change (":" +:+ port_s) with (String ":" port_s).
    cbn [contains startswith orb]. by rewrite andb_true_r.
  - change (":" +:+ ?x) with (String ":" x).
    rewrite split_append by done. f_equal. by apply split_absent.
Qed.

Lemma fetch_peers_cases w rpc_url m :
  fetch_peers w rpc_url m =
    match rpc_net_info w (rpc_url +:+ "/net_info") with
    | RequestFails =>
        (inl [], upd_log (λ l, l ++ [(ERROR, FailedPeers rpc_url)]) m)
    | Response code fields =>
        if code =? 200 then
          match fields with
          | Ok peers => (inl (peer_descriptor <$> peers), m)
          | Raise RequestException =>
              (inl [], upd_log (λ l, l ++ [(ERROR, FailedPeers rpc_url)]) m)
          | Raise ex => (inr (Exc ex), m)
          end
        else (inl [], m)
    end.
Proof.
  unfold fetch_peers, on_status_200.
  destruct (rpc_net_info w (rpc_url +:+ "/net_info")) as [|code fields];
    [done|].
  destruct (code =? 200); [|done].
  by destruct fields as [peers|[]].
Qed.

(** X5. From a 200 answer to the peer-list query [fetch_peers] gives one
    descriptor for each entry, in the order of the entries, and logs
    nothing.  When the id holds no ['@'], the remote address no ['@'] and
    no [':'] and the listen address no ['@'], [process_line] splits the
    descriptor back into the id, the remote address and the text after the
    last colon of the listen address. *)
Theorem fetched_descriptors_parse w rpc_url m peers :
  rpc_net_info w (rpc_url +:+ "/net_info") = Response 200 (Ok peers) →
  fetch_peers w rpc_url m = (inl (peer_descriptor <$> peers), m)
  ∧ ∀ peer,
      peer ∈ peers →
      contains "@" (peer_id peer) = false →
      contains "@" (remote_ip peer) = false →
      contains ":" (remote_ip peer) = false →
      contains "@" (listen_addr peer) = false →
      split "@" (peer_descriptor peer)
      = [peer_id peer;
         remote_ip peer +:+ ":" +:+ listen_port (listen_addr peer)]
      ∧ split ":" (remote_ip peer +:+ ":" +:+ listen_port (listen_addr peer))
        = [remote_ip peer; listen_port (listen_addr peer)]
      ∧ ¬ wrong_parts (peer_descriptor peer).
Proof.
  intros Hinfo. split.
  { by rewrite fetch_peers_cases, Hinfo. }
  intros peer _ Hid Hip_at Hip Haddr.
  destruct (listen_port_free (listen_addr peer)) as [Hlp Hlp_at].
  destruct (split_descriptor (peer_id peer) (remote_ip peer)
              (listen_port (listen_addr peer)) Hid Hip_at Hip
              (Hlp_at Haddr) Hlp) as [Hat Hcolon].
  split; [done|]. split; [done|].
  unfold wrong_parts, peer_descriptor. rewrite Hat, Hcolon. by intros [].
Qed.

Lemma fetched_descriptors_parse_witness :
  fetch_peers demo_world "http://rpc" (boot ∅)
  = (inl ["n2@10.0.0.2:26656"; "n1@10.0.0.1:26656"], boot ∅)
  ∧ split "@" "n2@10.0.0.2:26656" = ["n2"; "10.0.0.2:26656"]
  ∧ split ":" "10.0.0.2:26656" = ["10.0.0.2"; "26656"].
Proof.
  pose (peers := [ {| peer_id := "n2"; remote_ip := "10.0.0.2";
                      listen_addr := "tcp://0.0.0.0:26656" |};
                   {| peer_id := "n1"; remote_ip := "10.0.0.1";
                      listen_addr := "tcp://0.0.0.0:26656" |} ]).
  destruct (fetched_descriptors_parse demo_world "http://rpc" (boot ∅) peers
              eq_refl) as [Hfetch Hparse].
  split; [exact Hfetch|].
  destruct (Hparse {| peer_id := "n2"; remote_ip := "10.0.0.2";
                      listen_addr := "tcp://0.0.0.0:26656" |})
    as (Hat & Hcolon & _); [by left|reflexivity..|].
  split; [exact Hat|exact Hcolon].
Defined.

(** X6. A descriptor [id@ip:port_s] whose address holds a colon, as an
    IPv6 address does, never has the two parts [process_line] wants: it is
    discarded without a connection being tried.  So is the descriptor
    [fetch_peers] builds for a peer with such a remote address. *)
Theorem address_with_colon_is_dropped net e ml d id ip port_s :
  contains ":" ip = true →
  wrong_parts (id +:+ "@" +:+ ip +:+ ":" +:+ port_s)
  ∧ process_line net (id +:+ "@" +:+ ip +:+ ":" +:+ port_s) e ml d = Ok None
  ∧ ∀ peer,
      peer_id peer = id → remote_ip peer = ip →
      listen_port (listen_addr peer) = port_s →
      process_line net (peer_descriptor peer) e ml d = Ok None.
Proof.
  intros Hip.
  assert (wrong_parts (id +:+ "@" +:+ ip +:+ ":" +:+ port_s)) as Hwrong.
  { unfold wrong_parts.
    pose proof (split_append_length "@" id (ip +:+ ":" +:+ port_s)) as Hlen.
    change ("@" +:+ ?x) with (String "@" x).
    destruct (split "@" (id +:+ String "@" (ip +:+ ":" +:+ port_s)))
      as [|a [|hostport [|? ?]]] eqn:Hat; try done.
    pose proof (split_nonempty "@" id) as Hid.
    pose proof (split_nonempty "@" (ip +:+ ":" +:+ port_s)) as Hrest.
    destruct (split "@" id) as [|i [|? ?]] eqn:Hsid; [done| |];
      destruct (split "@" (ip +:+ ":" +:+ port_s)) as [|r [|? ?]] eqn:Hsr;
      try done; try (cbn in Hlen; lia).
    assert (id = i) as <-.
    { by rewrite <-(join_split "@" id), Hsid. }
    assert (ip +:+ ":" +:+ port_s = r) as <-.
    { by rewrite <-(join_split "@" (ip +:+ ":" +:+ port_s)), Hsr. }
    assert (split "@" (id +:+ String "@" (ip +:+ ":" +:+ port_s))
            = [id; ip +:+ ":" +:+ port_s]) as Hat'.
    { pose proof (split_parts_free "@" id) as Hfree. rewrite Hsid in Hfree.
      apply Forall_cons in Hfree as [Hfree _].
      rewrite split_append by done. by rewrite Hsr. }
    rewrite Hat in Hat'. injection Hat' as -> ->.
    change (":" +:+ port_s) with (String ":" port_s).
    rewrite split_append_length.
    pose proof (split_contains_length ":" ip Hip).
    pose proof (split_nonempty ":" port_s).
    destruct (split ":" port_s); [done|]. cbn. lia. }
  split; [done|]. split; [by apply process_line_wrong_parts|].
  intros peer <- <- <-. by apply process_line_wrong_parts.
Qed.

Lemma address_with_colon_is_dropped_witness :
  contains ":" "fe80::1" = true
  ∧ process_line demo_net "n1@fe80::1:26656" 1000 None 5 = Ok None.
Proof.
  assert (contains ":" "fe80::1" = true) as Hip by reflexivity.
  split; [exact Hip|].
  exact (proj1 (proj2 (address_with_colon_is_dropped demo_net 1000 None 5
                         "n1" "fe80::1" "26656" Hip))).
Defined.

(** ** The script: arguments and sources *)

Lemma bind_raise {A B} (c : M A) (f : A → M B) m r m1 :
  c m = (inr r, m1) → (c ≫= f) m = (inr r, m1).
Proof. intros Hc. unfold mbind, M_bind. by rewrite Hc. Qed.

Lemma try_except_ext {A} (body body' : M A) handler m :
  body m = body' m → try_except body handler m = try_except body' handler m.
Proof. intros H. unfold try_except. by rewrite H. Qed.

Lemma try_except_caught {A} (body : M A) handler m ex m1 :
  body m = (inr (Exc ex), m1) → try_except body handler m = handler ex m1.
Proof. intros H. unfold try_except. by rewrite H. Qed.

Lemma try_except_exit {A} (body : M A) handler m code m1 :
  body m = (inr (SystemExit code), m1) →
  try_except body handler m = (inr (SystemExit code), m1).
Proof. intros H. unfold try_except. by rewrite H. Qed.

Lemma max_latency_arg_run a0 a1 a2 a3 a4 a5 a6 rest ml m :
  max_latency_of rest = Some ml →
  (if bool_decide (7 < length (a0 :: a1 :: a2 :: a3 :: a4 :: a5 :: a6 :: rest))%nat
   then n ← argv_at (a0 :: a1 :: a2 :: a3 :: a4 :: a5 :: a6 :: rest) 7
              ≫= int_arg; mret (Some n)
   else mret None) m = (inl ml, m).
Proof.
  intros Hml. destruct rest as [|s rest]; cbn in Hml |- *.
  - by injection Hml as <-.
  - destruct (int s) as [n|] eqn:Hs; cbn in Hml; [|done].
    injection Hml as <-.
    eapply bind_ok; [|reflexivity].
    eapply bind_ok; [reflexivity|]. unfold int_arg. by rewrite Hs.
Qed.

(** With arguments that parse, the script is its body under the handler of
    the last resort. *)
Lemma main_after_args w order a0 rpc_url file tn out js ds rest top_n d ml m :
  int tn = Some top_n → int ds = Some d → max_latency_of rest = Some ml →
  main w order (a0 :: rpc_url :: file :: tn :: out :: js :: ds :: rest) m
  = try_except
      (main_body w order rpc_url file top_n out
         (bool_decide (lower js = "true")) d ml)
      (λ e, logging ERROR (ErrorOccurred e)) m.
Proof.
  intros Htn Hds Hml. unfold main. apply try_except_ext.
  eapply bind_ok; [reflexivity|].
  eapply bind_ok; [reflexivity|].
  eapply bind_ok.
  { eapply bind_ok; [reflexivity|]. unfold int_arg. by rewrite Htn. }
  eapply bind_ok; [reflexivity|].
  eapply bind_ok; [reflexivity|]. cbv zeta.
  eapply bind_ok.
  { eapply bind_ok; [reflexivity|]. unfold int_arg. by rewrite Hds. }
  eapply bind_ok; [by apply max_latency_arg_run|].
  reflexivity.
Qed.

Lemma fetch_expected_height_cases w rpc_url m :
  fetch_expected_height w rpc_url m =
    match rpc_status w (rpc_url +:+ "/status") with
    | RequestFails =>
        (inl None,
         upd_log (λ l, l ++ [(ERROR, FailedExpectedHeight rpc_url)]) m)
    | Response code fields =>
        if code =? 200 then
          match fields with
          | Ok h =>
              (inl (Some h),
               upd_log (λ l, l ++ [(INFO, ExpectedHeightFetched rpc_url h)]) m)
          | Raise RequestException =>
              (inl None,
               upd_log (λ l, l ++ [(ERROR, FailedExpectedHeight rpc_url)]) m)
          | Raise ex => (inr (Exc ex), m)
          end
        else (inl None, m)
    end.
Proof.
  unfold fetch_expected_height, on_status_200.
  destruct (rpc_status w (rpc_url +:+ "/status")) as [|code fields];
    [done|].
  destruct (code =? 200); [|done].
  by destruct fields as [h|[]].
Qed.

Lemma fetch_expected_height_unavailable w rpc_url m :
  unavailable (rpc_status w (rpc_url +:+ "/status")) →
  ∃ m', fetch_expected_height w rpc_url m = (inl None, m')
        ∧ files m' = files m
        ∧ (log m' = log m
           ∨ log m' = log m ++ [(ERROR, FailedExpectedHeight rpc_url)]).
Proof.
  rewrite fetch_expected_height_cases. unfold unavailable.
  destruct (rpc_status w (rpc_url +:+ "/status")) as [|code fields].
  { intros _. eexists. split; [done|]. split; [done|by right]. }
  intros [Hcode| ->].
  - rewrite (proj2 (Z.eqb_neq _ _) Hcode). eexists. by split_and!; [..|left].
  - destruct (code =? 200); eexists; (split; [done|]); split; try done;
      [by right|by left].
Qed.

(** X7. When the expected height cannot be had (the request failed, the
    status code is not 200, or the body could not be decoded), the script
    exits with status 1 before it reads any peer: no file is written and
    the log holds errors only.  The record of the failed fetch is there
    exactly when a [RequestException] was caught, that is when the request
    failed or the body of a 200 answer could not be decoded; after a status
    code other than 200 the record of the exit stands alone. *)
Theorem no_expected_height_is_fatal w order a0 rpc_url file tn out js ds rest
    top_n d ml fs :
  int tn = Some top_n → int ds = Some d → max_latency_of rest = Some ml →
  unavailable (rpc_status w (rpc_url +:+ "/status")) →
  ∃ m',
    run_script w order (a0 :: rpc_url :: file :: tn :: out :: js :: ds :: rest)
      fs = (1, m')
    ∧ files m' = fs
    ∧ successful_connections m' = [] ∧ moniker_info_list m' = []
    ∧ (log m' = [(ERROR, FailedExpectedHeight rpc_url);
                 (ERROR, ExitNoExpectedHeight)]
       ↔ rpc_status w (rpc_url +:+ "/status") = RequestFails
         ∨ rpc_status w (rpc_url +:+ "/status")
           = Response 200 (Raise RequestException))
    ∧ (log m' = [(ERROR, ExitNoExpectedHeight)]
       ↔ ∃ code fields,
           rpc_status w (rpc_url +:+ "/status") = Response code fields
           ∧ code ≠ 200).
Proof.
  intros Htn Hds Hml Hun.
  destruct (fetch_expected_height_unavailable w rpc_url (boot fs) Hun)
    as (m1 & Hfetch & Hfiles & Hlog).
  unfold run_script.
  rewrite (main_after_args _ _ _ _ _ _ _ _ _ _ _ _ _ _ Htn Hds Hml).
  erewrite try_except_exit.
  2: { unfold main_body. eapply bind_ok; [exact Hfetch|].
       eapply bind_ok; [reflexivity|]. reflexivity. }
  eexists. split; [reflexivity|].
  rewrite fetch_expected_height_cases in Hfetch.
  destruct (rpc_status w (rpc_url +:+ "/status")) as [|code fields].
  { injection Hfetch as <-. cbn. split_and!; try done.
    - split; [by left|done].
    - split; [done|]. by intros (code & fields & ? & _). }
  destruct (Z.eqb_spec code 200) as [->|Hcode].
  - destruct fields as [h|[]]; try done.
    injection Hfetch as <-. cbn. split_and!; try done.
    + split; [by right|done].
    + split; [done|]. by intros (code & fields & [= <- _] & ?).
  - injection Hfetch as <-. cbn. split_and!; try done.
    + split; [done|]. intros [?|[= ? _]]; done.
    + split; [|done]. intros _. by exists code, fields.
Qed.

Lemma no_expected_height_is_fatal_witness :
  ∃ m',
    run_script demo_world []
      ["peers_checker.py"; "http://down"; "peers.txt"; "1"; "top.txt"; "true";
       "20"] ∅ = (1, m')
    ∧ files m' = ∅
    ∧ log m' = [(ERROR, FailedExpectedHeight "http://down");
                (ERROR, ExitNoExpectedHeight)].
Proof.
  destruct (no_expected_height_is_fatal demo_world [] "peers_checker.py"
              "http://down" "peers.txt" "1" "top.txt" "true" "20" [] 1 20
              None ∅ eq_refl eq_refl eq_refl I)
    as (m' & Hrun & Hfiles & _ & _ & Hlog & _).
  exists m'. split; [exact Hrun|]. split; [exact Hfiles|].
  apply Hlog. by left.
Defined.

(** X8. When the status answer of the reference node is a 200 whose height
    cannot be read (a missing key, a height that is not a number), the
    exception escapes [fetch_expected_height] and is caught by the handler
    of the script: the error is logged, nothing is written, and the exit
    status is 0. *)
Theorem unreadable_height_exits_zero w order a0 rpc_url file tn out js ds rest
    top_n d ml fs ex :
  int tn = Some top_n → int ds = Some d → max_latency_of rest = Some ml →
  rpc_status w (rpc_url +:+ "/status") = Response 200 (Raise ex) →
  ex ≠ RequestException →
  run_script w order (a0 :: rpc_url :: file :: tn :: out :: js :: ds :: rest)
    fs
  = (0, upd_log (λ _, [(ERROR, ErrorOccurred ex)]) (boot fs)).
Proof.
  intros Htn Hds Hml Hst Hex. unfold run_script.
  rewrite (main_after_args _ _ _ _ _ _ _ _ _ _ _ _ _ _ Htn Hds Hml).
  erewrite try_except_caught.
  2: { unfold main_body. eapply bind_raise.
       rewrite fetch_expected_height_cases, Hst. by destruct ex. }
  reflexivity.
Qed.

Lemma unreadable_height_exits_zero_witness :
  run_script odd_world []
    ["peers_checker.py"; "http://odd"; "peers.txt"; "1"; "top.txt"; "true";
     "20"] ∅
  = (0, upd_log (λ _, [(ERROR, ErrorOccurred KeyError)]) (boot ∅)).
Proof.
  apply (unreadable_height_exits_zero odd_world [] "peers_checker.py"
           "http://odd" "peers.txt" "1" "top.txt" "true" "20" [] 1 20 None ∅
           KeyError); reflexivity || discriminate.
Defined.

Lemma fetch_expected_height_ok w rpc_url e m :
  on_status_200 (rpc_status w (rpc_url +:+ "/status")) = Ok (Some e) →
  fetch_expected_height w rpc_url m
  = (inl (Some e),
     upd_log (λ l, l ++ [(INFO, ExpectedHeightFetched rpc_url e)]) m).
Proof. intros He. unfold fetch_expected_height. by rewrite He. Qed.

(** X9. A peers file that cannot be opened or read ([IOError]) ends the
    run with status 1 after two error records and before any evaluation; a
    file whose reading raises anything else (bytes that do not decode) is
    caught by the handler of the script instead, and the run ends with
    status 0.  Neither writes a file. *)
Theorem unreadable_peers_file_outcomes w order a0 rpc_url file tn out js ds
    rest top_n d ml e fs ex :
  int tn = Some top_n → int ds = Some d → max_latency_of rest = Some ml →
  on_status_200 (rpc_status w (rpc_url +:+ "/status")) = Ok (Some e) →
  file ≠ EmptyString →
  read_file w file = Raise ex →
  run_script w order (a0 :: rpc_url :: file :: tn :: out :: js :: ds :: rest)
    fs
  = if decide (ex = IOError)
    then (1, upd_log (λ _, boot_log rpc_url e
                           ++ [(ERROR, FailedReadFile file);
                               (ERROR, ExitNoPeersFromFile file)]) (boot fs))
    else (0, upd_log (λ _, boot_log rpc_url e ++ [(ERROR, ErrorOccurred ex)])
               (boot fs)).
Proof.
  intros Htn Hds Hml He Hfile Hread. unfold run_script.
  rewrite (main_after_args _ _ _ _ _ _ _ _ _ _ _ _ _ _ Htn Hds Hml).
  destruct (decide (ex = IOError)) as [->|Hex].
  - erewrite try_except_exit.
    2: { unfold main_body.
         eapply bind_ok; [by apply fetch_expected_height_ok|].
         eapply bind_ok; [reflexivity|].
         eapply bind_raise.
         rewrite (bool_decide_eq_true_2 _ Hfile).
         eapply bind_ok.
         { unfold parse_file. rewrite Hread. reflexivity. }
         cbn [bool_decide decide_rel]. reflexivity. }
    reflexivity.
  - erewrite try_except_caught.
    2: { unfold main_body.
         eapply bind_ok; [by apply fetch_expected_height_ok|].
         eapply bind_ok; [reflexivity|].
         eapply bind_raise.
         rewrite (bool_decide_eq_true_2 _ Hfile).
         eapply bind_raise.
         unfold parse_file. rewrite Hread. by destruct ex. }
    reflexivity.
Qed.

Lemma unreadable_peers_file_outcomes_witness :
  (run_script odd_world [] (demo_argv "missing.txt") ∅).1 = 1
  ∧ (run_script odd_world [] (demo_argv "binary.txt") ∅).1 = 0.
Proof.
  split.
  - rewrite (unreadable_peers_file_outcomes odd_world [] "peers_checker.py"
               "http://rpc" "missing.txt" "1" "top.txt" "false" "20" [] 1 20
               None 1000 ∅ IOError); reflexivity || discriminate.
  - rewrite (unreadable_peers_file_outcomes odd_world [] "peers_checker.py"
               "http://rpc" "binary.txt" "1" "top.txt" "false" "20" [] 1 20
               None 1000 ∅ ValueError); reflexivity || discriminate.
Defined.

Lemma fetch_peers_none w rpc_url m :
  unavailable (rpc_net_info w (rpc_url +:+ "/net_info"))
  ∨ rpc_net_info w (rpc_url +:+ "/net_info") = Response 200 (Ok []) →
  ∃ m', fetch_peers w rpc_url m = (inl [], m')
        ∧ files m' = files m
        ∧ successful_connections m' = successful_connections m
        ∧ moniker_info_list m' = moniker_info_list m
        ∧ (log m' = log m ∨ log m' = log m ++ [(ERROR, FailedPeers rpc_url)]).
Proof.
  rewrite fetch_peers_cases. unfold unavailable.
  destruct (rpc_net_info w (rpc_url +:+ "/net_info")) as [|code fields].
  { intros _. eexists. by split_and!; [..|right]. }
  intros [[Hcode| ->]|[= -> ->]].
  - rewrite (proj2 (Z.eqb_neq _ _) Hcode). eexists. by split_and!; [..|left].
  - destruct (code =? 200); eexists; split_and!; try done;
      [by right|by left].
  - cbn. eexists. by split_and!; [..|left].
Qed.

(** X10. Without a peers file, when the peer-list query of the reference
    node gives nothing (the request failed, the status code is not 200,
    the body could not be decoded) or gives an empty list of peers, the
    script exits with status 1 before any evaluation: no file is written,
    and the last record of the log announces the exit. *)
Theorem no_peers_from_rpc_exits_one w order a0 rpc_url tn out js ds rest
    top_n d ml e fs :
  int tn = Some top_n → int ds = Some d → max_latency_of rest = Some ml →
  on_status_200 (rpc_status w (rpc_url +:+ "/status")) = Ok (Some e) →
  unavailable (rpc_net_info w (rpc_url +:+ "/net_info"))
  ∨ rpc_net_info w (rpc_url +:+ "/net_info") = Response 200 (Ok []) →
  ∃ m',
    run_script w order
      (a0 :: rpc_url :: EmptyString :: tn :: out :: js :: ds :: rest) fs
    = (1, m')
    ∧ files m' = fs
    ∧ successful_connections m' = [] ∧ moniker_info_list m' = []
    ∧ last (log m') = Some (ERROR, ExitNoPeersFromRpc rpc_url).
Proof.
  intros Htn Hds Hml He Hnone. unfold run_script.
  rewrite (main_after_args _ _ _ _ _ _ _ _ _ _ _ _ _ _ Htn Hds Hml).
  destruct (fetch_peers_none w rpc_url
              (upd_log (λ _, boot_log rpc_url e) (boot fs)) Hnone)
    as (m1 & Hfetch & Hfiles & Hsc & Hmi & Hlog).
  erewrite try_except_exit.
  2: { unfold main_body.
       eapply bind_ok; [by apply fetch_expected_height_ok|].
       eapply bind_ok; [reflexivity|].
       eapply bind_raise. cbn [bool_decide decide_rel].
       eapply bind_ok; [exact Hfetch|].
       eapply bind_ok; [reflexivity|]. reflexivity. }
  eexists. split; [reflexivity|]. cbn.
  split_and!; [done..|]. by rewrite last_snoc.
Qed.

Lemma no_peers_from_rpc_exits_one_witness :
  ∃ m', run_script lonely_world [] (demo_argv EmptyString) ∅ = (1, m')
        ∧ files m' = ∅.
Proof.
  destruct (no_peers_from_rpc_exits_one lonely_world [] "peers_checker.py"
              "http://rpc" "1" "top.txt" "false" "20" [] 1 20 None 1000 ∅
              eq_refl eq_refl eq_refl eq_refl (or_intror eq_refl))
    as (m' & Hrun & Hfiles & _).
  by exists m'.
Defined.

(** What the rest of the script does with the descriptors it has: it
    evaluates and saves, logs its summary, and ends. *)
Lemma main_body_with_lines w order rpc_url file top_n out json d ml e
    lines peers_source m1 m2 :
  on_status_200 (rpc_status w (rpc_url +:+ "/status")) = Ok (Some e) →
  (if bool_decide (file ≠ EmptyString) then
     lines ← parse_file w file;
     if bool_decide (lines = []) then
       logging ERROR (ExitNoPeersFromFile file);; sys_exit 1
     else mret (lines, file)
   else
     lines ← fetch_peers w rpc_url;
     if bool_decide (lines = []) then
       logging ERROR (ExitNoPeersFromRpc rpc_url);; sys_exit 1
     else mret (lines, rpc_url +:+ "/net_info"))
    (upd_log (λ l, l ++ [(INFO, ExpectedHeightIs e)])
       (upd_log (λ l, l ++ [(INFO, ExpectedHeightFetched rpc_url e)]) m1))
  = (inl (lines, peers_source), m2) →
  ∃ lg,
    main_body w order rpc_url file top_n out json d ml m1
    = (inl (),
       {| files :=
            files_after (files m2) out top_n json
              (collected (submit_all (peer_net w) lines e ml d) order);
          log := lg ++ [(INFO, PeersFetchedFrom peers_source);
                        (INFO, Completed)];
          successful_connections :=
            sort_desc conn_height
              (collected (submit_all (peer_net w) lines e ml d) order);
          moniker_info_list :=
            conn_info <$>
              collected (submit_all (peer_net w) lines e ml d) order;
          processed_count :=
            completed (submit_all (peer_net w) lines e ml d) order |}).
Proof.
  intros He Hlines.
  destruct (evaluate_and_save_run w order lines e ml d out top_n json m2)
    as [lg Hrun].
  exists (lg ++ [ (INFO, ScriptRunTime);
                  (INFO, TotalMatched
                           (length (collected
                                      (submit_all (peer_net w) lines e ml d)
                                      order)));
                  (INFO, TotalSaved
                           (length (top_connections
                                      (collected
                                         (submit_all (peer_net w) lines e ml d)
                                         order) top_n))) ]).
  unfold main_body.
  eapply bind_ok; [by apply fetch_expected_height_ok|].
  eapply bind_ok; [reflexivity|].
  eapply bind_ok; [exact Hlines|].
  eapply bind_ok; [exact Hrun|].
  eapply bind_ok; [reflexivity|].
  eapply bind_ok; [reflexivity|].
  eapply bind_ok; [reflexivity|].
  eapply bind_ok; [reflexivity|].
  unfold logging, modify, upd_log, files_after. cbn.
  rewrite <-!app_assoc. reflexivity.
Qed.

(** X11. End to end, from a peers file.  With arguments that parse, an
    expected height and a peers file that can be read, the script ends with
    status 0 whatever the file holds.  The descriptors are the parts of the
    stripped text between commas; the files it leaves are the selection of
    the records collected from them, its ids, and the metadata when asked
    for; the log ends with the source of the peers and the completion
    record. *)
Theorem run_on_peers_file w order a0 rpc_url file tn out js ds rest
    top_n d ml e text fs :
  int tn = Some top_n → int ds = Some d → max_latency_of rest = Some ml →
  on_status_200 (rpc_status w (rpc_url +:+ "/status")) = Ok (Some e) →
  file ≠ EmptyString →
  read_file w file = Ok text →
  ∃ m',
    run_script w order (a0 :: rpc_url :: file :: tn :: out :: js :: ds :: rest)
      fs = (0, m')
    ∧ files m'
      = files_after fs out top_n (bool_decide (lower js = "true"))
          (collected (submit_all (peer_net w) (split "," (strip text)) e ml d)
             order)
    ∧ moniker_info_list m'
      = conn_info <$>
          collected (submit_all (peer_net w) (split "," (strip text)) e ml d)
            order
    ∧ (∃ lg, log m' = lg ++ [(INFO, PeersFetchedFrom file);
                             (INFO, Completed)]).
Proof.
  intros Htn Hds Hml He Hfile Hread. unfold run_script.
  rewrite (main_after_args _ _ _ _ _ _ _ _ _ _ _ _ _ _ Htn Hds Hml).
  edestruct (main_body_with_lines w order rpc_url file top_n out
               (bool_decide (lower js = "true")) d ml e
               (split "," (strip text)) file (boot fs)) as [lg Hbody];
    [done| |].
  { rewrite (bool_decide_eq_true_2 _ Hfile).
    eapply bind_ok.
    { unfold parse_file. rewrite Hread. reflexivity. }
    rewrite (bool_decide_eq_false_2 _ (split_nonempty "," (strip text))).
    reflexivity. }
  erewrite try_except_ok by exact Hbody.
  eexists. split; [reflexivity|]. cbn. split_and!; [done..|]. by exists lg.
Qed.

Lemma run_on_peers_file_witness :
  ∃ m',
    run_script demo_world [2; 0; 1]%nat
      ["peers_checker.py"; "http://rpc"; "peers.txt"; "1"; "top.txt"; "True";
       "20"; "100"] ∅ = (0, m')
    ∧ ∃ lg, log m' = lg ++ [(INFO, PeersFetchedFrom "peers.txt");
                            (INFO, Completed)].
Proof.
  destruct (run_on_peers_file demo_world [2; 0; 1]%nat "peers_checker.py"
              "http://rpc" "peers.txt" "1" "top.txt" "True" "20" ["100"]
              1 20 (Some 100) 1000
              ("n2@10.0.0.2:26656,n1@10.0.0.1:26656,n3@10.0.0.3:26656"
               +:+ newline) ∅)
    as (m' & Hrun & _ & _ & Hlog); try reflexivity; [discriminate|].
  by exists m'.
Defined.

(** X12. End to end, from the peer-list query.  Without a peers file and
    with a 200 answer listing at least one peer, the script ends with
    status 0; the descriptors are those built from the entries, in their
    order, and the files it leaves are the selection of the records
    collected from them, its ids, and the metadata when asked for. *)
Theorem run_on_rpc_peers w order a0 rpc_url tn out js ds rest
    top_n d ml e peers fs :
  int tn = Some top_n → int ds = Some d → max_latency_of rest = Some ml →
  on_status_200 (rpc_status w (rpc_url +:+ "/status")) = Ok (Some e) →
  rpc_net_info w (rpc_url +:+ "/net_info") = Response 200 (Ok peers) →
  peers ≠ [] →
  ∃ m',
    run_script w order
      (a0 :: rpc_url :: EmptyString :: tn :: out :: js :: ds :: rest) fs
    = (0, m')
    ∧ files m'
      = files_after fs out top_n (bool_decide (lower js = "true"))
          (collected
             (submit_all (peer_net w) (peer_descriptor <$> peers) e ml d)
             order)
    ∧ moniker_info_list m'
      = conn_info <$>
          collected
            (submit_all (peer_net w) (peer_descriptor <$> peers) e ml d)
            order
    ∧ (∃ lg, log m' = lg ++ [(INFO, PeersFetchedFrom (rpc_url +:+ "/net_info"));
                             (INFO, Completed)]).
Proof.
  intros Htn Hds Hml He Hinfo Hpeers. unfold run_script.
  rewrite (main_after_args _ _ _ _ _ _ _ _ _ _ _ _ _ _ Htn Hds Hml).
  edestruct (main_body_with_lines w order rpc_url EmptyString top_n out
               (bool_decide (lower js = "true")) d ml e
               (peer_descriptor <$> peers) (rpc_url +:+ "/net_info")
               (boot fs)) as [lg Hbody]; [done| |].
  { cbn [bool_decide decide_rel].
    eapply bind_ok.
    { rewrite fetch_peers_cases, Hinfo. reflexivity. }
    rewrite bool_decide_eq_false_2; [reflexivity|].
    by destruct peers. }
  erewrite try_except_ok by exact Hbody.
  eexists. split; [reflexivity|]. cbn. split_and!; [done..|]. by exists lg.
Qed.

Lemma run_on_rpc_peers_witness :
  ∃ m',
    run_script demo_world [0; 1]%nat
      ["peers_checker.py"; "http://rpc"; EmptyString; "5"; "top"; "false";
       "20"] ∅ = (0, m')
    ∧ ∃ lg, log m' = lg ++ [(INFO, PeersFetchedFrom "http://rpc/net_info");
                            (INFO, Completed)].
Proof.
  destruct (run_on_rpc_peers demo_world [0; 1]%nat "peers_checker.py"
              "http://rpc" "5" "top" "false" "20" [] 5 20 None 1000
              [ {| peer_id := "n2"; remote_ip := "10.0.0.2";
                   listen_addr := "tcp://0.0.0.0:26656" |};
                {| peer_id := "n1"; remote_ip := "10.0.0.1";
                   listen_addr := "tcp://0.0.0.0:26656" |} ] ∅)
    as (m' & Hrun & _ & _ & Hlog); try reflexivity; [discriminate|].
  by exists m'.
Defined.

Ltac arg_ok :=
  first
    [ eapply bind_ok; [reflexivity|]
    | eapply bind_ok;
      [ eapply bind_ok; [reflexivity|]; unfold int_arg;
        repeat match goal with H : int _ = _ |- _ => rewrite H end;
        reflexivity
      | ] ];
  cbv zeta.

Ltac arg_raise :=
  first
    [ eapply bind_raise; reflexivity
    | eapply bind_raise; eapply bind_ok; [reflexivity|]; unfold int_arg;
      repeat match goal with H : int _ = _ |- _ => rewrite H end;
      reflexivity
    | eapply bind_raise; cbn [length bool_decide decide_rel];
      eapply bind_raise; eapply bind_ok; [reflexivity|]; unfold int_arg;
      repeat match goal with H : int _ = _ |- _ => rewrite H end;
      reflexivity ].

(** X13. Arguments that are missing or are not integers do not give a
    failure status: with fewer than six arguments, or a count, a tolerance
    or a latency bound that [int] rejects, the [IndexError] or [ValueError]
    is caught by the handler of the script, which logs it; nothing is
    fetched or written and the exit status is 0. *)
Theorem bad_arguments_exit_zero w order argv fs :
  (length argv < 7)%nat
  ∨ (∃ s, argv !! 3%nat = Some s ∧ int s = None)
  ∨ (∃ s, argv !! 6%nat = Some s ∧ int s = None)
  ∨ (∃ s, argv !! 7%nat = Some s ∧ int s = None) →
  ∃ ex,
    run_script w order argv fs
    = (0, upd_log (λ _, [(ERROR, ErrorOccurred ex)]) (boot fs))
    ∧ (ex = IndexError ∨ ex = ValueError).
Proof.
  intros Hbad.
  assert (∃ ex, main w order argv (boot fs)
                = (inl (), upd_log (λ _, [(ERROR, ErrorOccurred ex)]) (boot fs))
                ∧ (ex = IndexError ∨ ex = ValueError)) as (ex & Hmain & Hex).
  2: { exists ex. unfold run_script. by rewrite Hmain. }
  unfold main.
  destruct argv as [|a0 [|a1 [|a2 [|a3 argv]]]].
  1-4: eexists; split;
    [erewrite try_except_caught; [|repeat arg_ok; arg_raise]; reflexivity
    |by left].
  destruct (int a3) as [n3|] eqn:H3.
  2: { eexists; split;
         [erewrite try_except_caught; [|repeat arg_ok; arg_raise]; reflexivity
         |by right]. }
  destruct argv as [|a4 [|a5 [|a6 rest]]].
  1-3: eexists; split;
    [erewrite try_except_caught; [|repeat arg_ok; arg_raise]; reflexivity
    |by left].
  destruct (int a6) as [n6|] eqn:H6.
  2: { eexists; split;
         [erewrite try_except_caught; [|repeat arg_ok; arg_raise]; reflexivity
         |by right]. }
  destruct rest as [|a7 rest].
  { exfalso. destruct Hbad as [Hlen|[(s & Hs & Hint)|[(s & Hs & Hint)|(s & Hs & _)]]];
      cbn in *; [lia|congruence..|done]. }
  destruct (int a7) as [n7|] eqn:H7.
  { exfalso. destruct Hbad as [Hlen|[(s & Hs & Hint)|[(s & Hs & Hint)|(s & Hs & Hint)]]];
      cbn in *; [lia|congruence..]. }
  eexists; split;
    [erewrite try_except_caught; [|repeat arg_ok; arg_raise]; reflexivity
    |by right].
Qed.

Lemma bad_arguments_exit_zero_witness :
  ∃ ex,
    run_script demo_world [] ["peers_checker.py"; "http://rpc"; "peers.txt"] ∅
    = (0, upd_log (λ _, [(ERROR, ErrorOccurred ex)]) (boot ∅)).
Proof.
  destruct (bad_arguments_exit_zero demo_world []
              ["peers_checker.py"; "http://rpc"; "peers.txt"] ∅) as (ex & H & _).
  - left. cbn. lia.
  - by exists ex.
Defined.

(** ** More on the selection *)

Lemma slice_to_take {A} (l : list A) (n : Z) :
  ∃ k, slice_to l n = take k l
       ∧ k = if n <? 0 then (length l - Z.to_nat (- n))%nat else Z.to_nat n.
Proof. unfold slice_to. destruct (n <? 0); by eexists. Qed.

Lemma sort_desc_idem {A} (key : A → Z) (l : list A) :
  sort_desc key (sort_desc key l) = sort_desc key l.
Proof.
  apply (stable_desc_unique key); [apply sort_desc_sorted..|].
  intros h. apply sort_desc_stable.
Qed.

(** X14. A negative [top_n] is a slice from the end: [top_n = -k] saves
    all the records but the [k] lowest ones, and none when there are no
    more than [k].  The list is left ranked, the records saved first and
    the [k] left out after them, none of which is higher than a record
    saved. *)
Theorem negative_top_n_drops_the_lowest output_filename top_n m :
  top_n < 0 →
  ∃ m' (top rest : list connection),
    save_top_connections output_filename top_n m = (inl (length top), m')
    ∧ successful_connections m' = top ++ rest
    ∧ top ++ rest ≡ₚ successful_connections m
    ∧ StronglySorted (desc conn_height) (top ++ rest)
    ∧ (∀ c c', c ∈ top → c' ∈ rest → conn_height c' ≤ conn_height c)
    ∧ length rest
      = (Z.to_nat (- top_n) `min` length (successful_connections m))%nat
    ∧ length top
      = (length (successful_connections m) - Z.to_nat (- top_n))%nat
    ∧ files m' !! ids_only_filename output_filename
      = Some (Text (join "," (ids_of top))).
Proof.
  intros Hn.
  exists
    (save_top_connections output_filename top_n m).2,
    (top_connections (successful_connections m) top_n),
    (drop (length (successful_connections m) - Z.to_nat (- top_n))
       (sort_desc conn_height (successful_connections m))).
  rewrite save_top_connections_run. cbn.
  unfold top_connections, slice_to. rewrite (proj2 (Z.ltb_lt _ _) Hn).
  pose proof (sort_desc_sorted conn_height (successful_connections m))
    as Hsorted.
  rewrite <-(take_drop (length (successful_connections m)
                        - Z.to_nat (- top_n))) in Hsorted.
  rewrite sort_desc_length.
  split; [done|]. split; [by rewrite take_drop|].
  split; [rewrite take_drop; apply sort_desc_perm|].
  split; [exact Hsorted|].
  split.
  { intros c c' Hc Hc'.
    apply (StronglySorted_app_1_elem_of _ _ _ c c' Hsorted Hc Hc'). }
  rewrite length_drop, length_take, sort_desc_length.
  split_and!; [lia|lia|apply lookup_insert_eq].
Qed.

Lemma negative_top_n_drops_the_lowest_witness :
  ∃ m' (top rest : list connection),
    save_top_connections "top.txt" (-1) demo_machine = (inl (length top), m')
    ∧ length top = 2%nat ∧ length rest = 1%nat.
Proof.
  destruct (negative_top_n_drops_the_lowest "top.txt" (-1) demo_machine
              eq_refl)
    as (m' & top & rest & Hrun & _ & _ & _ & _ & Hrest & Htop & _).
  by exists m', top, rest.
Defined.

(** X15. The selection is a prefix of the ranked list, whatever [top_n]
    is, and no record left out is higher than a record saved. *)
Theorem selection_dominates_the_rest output_filename top_n m :
  ∃ m' (top rest : list connection),
    save_top_connections output_filename top_n m = (inl (length top), m')
    ∧ top = top_connections (successful_connections m) top_n
    ∧ successful_connections m' = top ++ rest
    ∧ top ++ rest ≡ₚ successful_connections m
    ∧ ∀ c c', c ∈ top → c' ∈ rest → conn_height c' ≤ conn_height c.
Proof.
  destruct (slice_to_take
              (sort_desc conn_height (successful_connections m)) top_n)
    as (k & Hk & _).
  exists (save_top_connections output_filename top_n m).2,
    (top_connections (successful_connections m) top_n),
    (drop k (sort_desc conn_height (successful_connections m))).
  rewrite save_top_connections_run. cbn.
  unfold top_connections. rewrite Hk, take_drop.
  split_and!; [done|done|done|apply sort_desc_perm|].
  intros c c' Hc Hc'.
  pose proof (sort_desc_sorted conn_height (successful_connections m)) as Hs.
  rewrite <-(take_drop k) in Hs.
  apply (StronglySorted_app_1_elem_of _ _ _ c c' Hs Hc Hc').
Qed.

(** X16. Saving twice is saving once: a second [save_top_connections] with
    the same arguments finds the list ranked already, returns the same
    count and leaves the same files. *)
Theorem save_top_connections_twice output_filename top_n m :
  ∃ m1 m2 n,
    save_top_connections output_filename top_n m = (inl n, m1)
    ∧ save_top_connections output_filename top_n m1 = (inl n, m2)
    ∧ files m2 = files m1
    ∧ successful_connections m2 = successful_connections m1
    ∧ moniker_info_list m2 = moniker_info_list m.
Proof.
  assert (top_connections (sort_desc conn_height (successful_connections m))
            top_n
          = top_connections (successful_connections m) top_n) as Htop.
  { unfold top_connections. by rewrite sort_desc_idem. }
  exists (save_top_connections output_filename top_n m).2,
    (save_top_connections output_filename top_n
       (save_top_connections output_filename top_n m).2).2,
    (length (top_connections (successful_connections m) top_n)).
  rewrite !save_top_connections_run.
  cbn [snd files successful_connections moniker_info_list].
  rewrite ?save_top_connections_run.
  cbn [snd files successful_connections moniker_info_list].
  rewrite Htop, sort_desc_idem.
  split_and!; [done|done| |done|done].
  set (X := Text (join "," (ids_of _))).
  set (Y := Text (join "," (lines_of _))).
  apply map_eq. intros path.
  destruct (decide (path = ids_only_filename output_filename)) as [->|Hids];
    [by rewrite !lookup_insert_eq|].
  destruct (decide (path = output_filename)) as [->|Hout];
    repeat first [ rewrite lookup_insert_eq
                 | rewrite lookup_insert_ne by done ];
    done.
Qed.

(** X17. Evaluating and saving writes three files at most: the output
    file, the ids-only file and, when the metadata is asked for, the
    metadata file.  Every other file is left as it was, and without the
    metadata flag the metadata file is not written either unless it bears
    one of the other two names. *)
Theorem only_the_output_files_are_written w order lines e ml d
    output_filename top_n json_format m path :
  path ≠ output_filename →
  path ≠ ids_only_filename output_filename →
  path ≠ moniker_filename output_filename ∨ json_format = false →
  ∃ m' counts,
    evaluate_and_save w order lines e ml d output_filename top_n json_format m
    = (inl counts, m')
    ∧ files m' !! path = files m !! path.
Proof.
  intros Hout Hids Hjson.
  destruct (evaluate_and_save_run w order lines e ml d output_filename top_n
              json_format m) as [lg Hrun].
  eexists _, _. split; [exact Hrun|]. cbn.
  destruct json_format.
  - destruct Hjson as [Hjson|]; [|done].
    by rewrite !lookup_insert_ne.
  - by rewrite !lookup_insert_ne.
Qed.

Lemma only_the_output_files_are_written_witness :
  ∃ m' counts,
    evaluate_and_save demo_world [2; 0; 1]%nat demo_lines 1000 None 20
      "top.txt" 1 true
      (upd_files (λ _, {["peers.txt" := Text "n1@10.0.0.1:26656"]}) (boot ∅))
    = (inl counts, m')
    ∧ files m' !! "peers.txt" = Some (Text "n1@10.0.0.1:26656").
Proof.
  destruct (only_the_output_files_are_written demo_world [2; 0; 1]%nat
              demo_lines 1000 None 20 "top.txt" 1 true
              (upd_files (λ _, {["peers.txt" := Text "n1@10.0.0.1:26656"]})
                 (boot ∅))
              "peers.txt")
    as (m' & counts & Hrun & Hfile); [discriminate..|by left|].
  exists m', counts. split; [exact Hrun|]. rewrite Hfile. reflexivity.
Defined.

(** The suffix [.txt] of a name that holds no other [.txt] is the one
    occurrence [replace] finds. *)
Lemma replace_txt_suffix new base :
  contains ".txt" base = false →
  replace ".txt" new (base +:+ ".txt") = base +:+ new.
Proof.
  unfold replace. induction base as [|c base IH]; intros Hc.
  - change (EmptyString +:+ ?x) with x. cbn. by rewrite append_nil_r.
  - cbn [contains] in Hc. apply orb_false_iff in Hc as [Hs Hc].
    change (String c base +:+ ?x) with (String c (base +:+ x)).
    cbn [replace_from].
    assert (startswith ".txt" (String c (base +:+ ".txt")) = false) as ->.
    { clear IH Hc. cbn [startswith] in Hs |- *.
      destruct (ascii_eqb "." c); [|done]. cbn [andb] in Hs |- *.
      destruct base as [|b0 [|b1 [|b2 base]]];
        rewrite ?append_cons; change (EmptyString +:+ ?x) with x;
        cbn [startswith] in Hs |- *.
      - done.
      - by rewrite andb_false_r.
      - by rewrite !andb_false_r.
      - done. }
    by rewrite IH.
Qed.

(** X18. For an output file name that ends in [.txt] and holds no other
    [.txt], the ids go to the name with [_ids_only.txt] in its place, a
    different file: the output file keeps the selected lines. *)
Theorem txt_name_keeps_both_files base top_n m :
  contains ".txt" base = false →
  ids_only_filename (base +:+ ".txt") = base +:+ "_ids_only.txt"
  ∧ ∃ m' (top : list connection),
      save_top_connections (base +:+ ".txt") top_n m = (inl (length top), m')
      ∧ top = top_connections (successful_connections m) top_n
      ∧ files m' !! (base +:+ ".txt") = Some (Text (join "," (lines_of top)))
      ∧ files m' !! (base +:+ "_ids_only.txt")
        = Some (Text (join "," (ids_of top))).
Proof.
  intros Hbase.
  assert (ids_only_filename (base +:+ ".txt") = base +:+ "_ids_only.txt")
    as Hid by (by apply replace_txt_suffix).
  split; [done|].
  eexists _, _. split; [apply save_top_connections_run|]. cbn.
  rewrite Hid. split; [done|]. split; [|apply lookup_insert_eq].
  rewrite lookup_insert_ne; [apply lookup_insert_eq|].
  intros Heq. by apply (inj (String.append base)) in Heq.
Qed.

Lemma txt_name_keeps_both_files_witness :
  ids_only_filename "top.txt" = "top_ids_only.txt"
  ∧ ∃ m' (top : list connection),
      save_top_connections "top.txt" 2 demo_machine = (inl (length top), m')
      ∧ files m' !! "top.txt" = Some (Text (join "," (lines_of top))).
Proof.
  destruct (txt_name_keeps_both_files "top" 2 demo_machine eq_refl)
    as (Hid & m' & top & Hrun & _ & Hfile & _).
  split; [exact Hid|]. by exists m', top.
Defined.

(** ** The progress of the scheduler *)

Section progress.
Context (futures : list (string * result (option connection))).
Context (total_lines : nat).

Lemma completed_failed order :
  Forall (λ i, i < length futures)%nat order →
  (completed futures order + failed futures order)%nat = length order.
Proof.
  induction 1 as [|i order Hi _ IH]; [done|]. cbn.
  apply lookup_lt_is_Some_2 in Hi as [[line [r|ex]] Hi]; rewrite Hi; lia.
Qed.

Lemma failed_zero order :
  failed futures order = 0%nat ↔
  ∀ i line ex, i ∈ order → futures !! i ≠ Some (line, Raise ex).
Proof.
  induction order as [|j order IH]; cbn.
  - split; [|done]. intros _ i line ex Hi. by apply elem_of_nil in Hi.
  - destruct (futures !! j) as [[line' [r|ex']]|] eqn:Hj.
    + rewrite IH. split.
      * intros H i line ex [->|Hi]%elem_of_cons; [congruence|by apply H].
      * intros H i line ex Hi. apply H. by right.
    + split; [done|]. intros H. destruct (H j line' ex'); [by left|done].
    + rewrite IH. split.
      * intros H i line ex [->|Hi]%elem_of_cons; [congruence|by apply H].
      * intros H i line ex Hi. apply H. by right.
Qed.

Lemma collector_log_length count order :
  Forall (λ i, i < length futures)%nat order →
  length (collector_log futures total_lines count order) = length order.
Proof.
  intros H. revert count. induction H as [|i order Hi _ IH]; [done|].
  intros count. cbn.
  apply lookup_lt_is_Some_2 in Hi as [[line [r|ex]] Hi]; rewrite Hi; cbn;
    by rewrite IH.
Qed.

Lemma collected_le_completed order :
  (length (collected futures order) ≤ completed futures order)%nat.
Proof.
  induction order as [|i order IH]; [done|].
  rewrite collected_cons, length_app, completed_cons.
  assert (length (collected futures [i]) ≤ completed futures [i])%nat.
  { unfold collected, accepted_of. cbn [mbind list_bind completed].
    destruct (futures !! i) as [[line [[c|]|ex]]|]; cbn; lia. }
  lia.
Qed.

End progress.

(** X19. The progress counter of [check_nodes] counts the tasks that
    returned, accepted or not: it reaches the number of lines exactly when
    no task raised.  Every task leaves one record in the log, a progress
    record or an error, and no more records are collected than tasks
    returned. *)
Theorem progress_counts_returned_tasks nets order lines e ml d m :
  order ≡ₚ seq 0 (length lines) →
  ∃ m',
    check_nodes nets order lines e ml d m = (inl (), m')
    ∧ (processed_count m' ≤ length lines)%nat
    ∧ (processed_count m' = length lines ↔
       ∀ i line ex, lines !! i = Some line →
                    process_line (nets i) line e ml d ≠ Raise ex)
    ∧ length (log m') = (length (log m) + length lines)%nat
    ∧ (length (successful_connections m') ≤ processed_count m')%nat.
Proof.
  intros Hperm. eexists. split; [apply check_nodes_run|]. cbn.
  set (futures := submit_all nets lines e ml d).
  assert (length futures = length lines) as Hlen.
  { unfold futures, submit_all. apply length_imap. }
  assert (Forall (λ i, i < length futures)%nat order) as Hrange.
  { apply Forall_forall. intros i Hi. rewrite Hperm in Hi.
    apply elem_of_seq in Hi. lia. }
  assert (length order = length lines) as Hlo.
  { by rewrite Hperm, length_seq. }
  pose proof (completed_failed futures order Hrange) as Hsum.
  split_and!.
  - lia.
  - transitivity (failed futures order = 0%nat); [lia|].
    rewrite failed_zero. split.
    + intros H i line ex Hi Hraise. apply (H i line ex).
      * rewrite Hperm. apply elem_of_seq. apply lookup_lt_Some in Hi. lia.
      * unfold futures. by rewrite submit_all_lookup, Hi; cbn; rewrite Hraise.
    + intros H i line ex Hi Hf. unfold futures in Hf.
      rewrite submit_all_lookup in Hf.
      destruct (lines !! i) as [line'|] eqn:Hl; [|done].
      injection Hf as -> Hf. by apply (H i line ex).
  - by rewrite length_app, collector_log_length, Hlo.
  - apply collected_le_completed.
Qed.

Lemma progress_counts_returned_tasks_witness :
  ∃ m',
    check_nodes (λ _, demo_net) [2; 0; 1]%nat demo_lines 1000 None 20 (boot ∅)
    = (inl (), m')
    ∧ (processed_count m' ≤ length demo_lines)%nat
    ∧ length (log m') = 3%nat.
Proof.
  assert ([2; 0; 1]%nat ≡ₚ seq 0 (length demo_lines)) as Hperm.
  { cbn. transitivity [0; 2; 1]%nat; [apply perm_swap|].
    apply perm_skip, perm_swap. }
  destruct (progress_counts_returned_tasks (λ _, demo_net) [2; 0; 1]%nat
              demo_lines 1000 None 20 (boot ∅) Hperm)
    as (m' & Hrun & Hle & _ & Hlog & _).
  by exists m'.
Defined.

(** ** Numbers written and read back *)

Lemma digits_all_digits s prev acc :
  all_digits s = true → s ≠ EmptyString →
  digits prev acc s
  = Some (acc * 10 ^ Z.of_nat (String.length s) + digits_value s).
Proof.
  revert prev acc. induction s as [|c s IH]; intros prev acc Hs Hne; [done|].
  cbn [all_digits] in Hs. apply andb_true_iff in Hs as [Hc Hs].
  apply bool_decide_eq_true in Hc as [v Hc].
  cbn [digits digits_value String.length]. rewrite Hc. cbn [default].
  destruct s as [|c' s'].
  - cbn. f_equal. unfold id. lia.
  - rewrite IH by done. f_equal.
    rewrite (Nat2Z.inj_succ (String.length (String c' s'))), Z.pow_succ_r by lia.
    unfold id. lia.
Qed.

Lemma digit_pretty_N_char r :
  (r < 10)%N → digit (pretty_N_char r) = Some (Z.of_N r).
Proof.
  intros Hr.
  assert (r = 0 ∨ r = 1 ∨ r = 2 ∨ r = 3 ∨ r = 4 ∨ r = 5 ∨ r = 6 ∨ r = 7
          ∨ r = 8 ∨ r = 9)%N as Hcases by lia.
  repeat (destruct Hcases as [->|Hcases]; [reflexivity|]). by subst.
Qed.

Lemma pretty_N_go_digits x s :
  all_digits s = true →
  all_digits (pretty_N_go x s) = true
  ∧ digits_value (pretty_N_go x s)
    = Z.of_N x * 10 ^ Z.of_nat (String.length s) + digits_value s.
Proof.
  revert s. induction (N.lt_wf_0 x) as [x _ IH]; intros s Hs.
  destruct (decide (x = 0)%N) as [->|Hx].
  { rewrite pretty_N_go_0. split; [done|lia]. }
  rewrite pretty_N_go_step by lia.
  assert (x `mod` 10 < 10)%N as Hr by (by apply N.mod_lt).
  destruct (IH (x `div` 10)%N) with
    (s := String (pretty_N_char (x `mod` 10)) s) as [Hall Hval].
  { apply N.div_lt; lia. }
  { cbn [all_digits]. rewrite Hs, (digit_pretty_N_char _ Hr).
    by rewrite bool_decide_eq_true_2. }
  split; [done|]. rewrite Hval.
  cbn [digits_value String.length]. rewrite (digit_pretty_N_char _ Hr).
  cbn [default].
  rewrite (Nat2Z.inj_succ (String.length s)), Z.pow_succ_r by lia.
  rewrite (N.div_mod x 10) at 3 by done.
  rewrite N2Z.inj_add, N2Z.inj_mul. change (Z.of_N 10) with 10.
  unfold id. lia.
Qed.

Lemma pretty_N_digits x :
  all_digits (pretty x) = true ∧ digits_value (pretty x) = Z.of_N x
  ∧ pretty x ≠ EmptyString.
Proof.
  unfold pretty, pretty_N. destruct (decide (x = 0)%N) as [->|Hx]; [done|].
  destruct (pretty_N_go_digits x EmptyString eq_refl) as [Hall Hval].
  cbn [String.length digits_value] in Hval.
  change (Z.of_nat 0) with 0 in Hval. rewrite Z.pow_0_r in Hval.
  split; [done|]. split; [lia|].
  intros Hempty. rewrite Hempty in Hval. cbn [digits_value] in Hval. lia.
Qed.

Lemma all_digits_without c s :
  digit c = None → all_digits s = true →
  contains (String c EmptyString) s = false.
Proof.
  intros Hc. induction s as [|b s IH]; [done|]. cbn [all_digits].
  intros [Hb Hs]%andb_true_iff. cbn [contains startswith].
  rewrite (IH Hs), andb_true_r, orb_false_r.
  apply bool_decide_eq_true in Hb as [v Hb].
  unfold ascii_eqb. destruct (Ascii.eqb_spec c b) as [->|]; [congruence|done].
Qed.

(** Stripping leaves a string without white space as it is. *)
Lemma strip_no_space s : any_space s = false → strip s = s.
Proof.
  intros Hs. unfold strip.
  assert (lstrip s = s) as ->.
  { destruct s as [|c s]; [done|]. cbn in Hs |- *.
    by apply orb_false_iff in Hs as [-> _]. }
  induction s as [|c s IH]; [done|].
  cbn in Hs. apply orb_false_iff in Hs as [Hc Hs].
  cbn [rstrip]. rewrite (IH Hs), Hc. by destruct s.
Qed.

Lemma digit_not_int_space c v : digit c = Some v → int_space c = false.
Proof.
  unfold digit, int_space.
  destruct (48 <=? nat_of_ascii c)%nat eqn:H1; [|done].
  destruct (nat_of_ascii c <=? 57)%nat eqn:H2; [|done].
  apply Nat.leb_le in H1, H2. intros _.
  repeat match goal with
         | |- context [(?a <=? ?b)%nat] => destruct (Nat.leb_spec a b)
         | |- context [(?a =? ?b)%nat] => destruct (Nat.eqb_spec a b)
         end; cbn; try done; lia.
Qed.

(** A string of digits has no white space for [int] to drop. *)
Lemma int_rstrip_digits s : all_digits s = true → int_rstrip s = s.
Proof.
  induction s as [|c s IH]; [done|]. cbn [all_digits].
  intros [Hc Hs]%andb_true_iff. cbn [int_rstrip]. rewrite (IH Hs).
  apply bool_decide_eq_true in Hc as [v Hc].
  rewrite (digit_not_int_space c v Hc). by destruct s.
Qed.

Lemma int_strip_digits s : all_digits s = true → int_strip s = s.
Proof.
  intros Hall. unfold int_strip.
  assert (int_lstrip s = s) as ->; [|by apply int_rstrip_digits].
  destruct s as [|c s]; [done|]. cbn [all_digits] in Hall.
  apply andb_true_iff in Hall as [Hc _].
  apply bool_decide_eq_true in Hc as [v Hc].
  cbn [int_lstrip]. by rewrite (digit_not_int_space c v Hc).
Qed.

Lemma int_strip_minus s :
  all_digits s = true → int_strip (String "-" s) = String "-" s.
Proof.
  intros Hall. unfold int_strip.
  change (int_lstrip (String "-" s)) with (String "-" s).
  cbn [int_rstrip]. rewrite (int_rstrip_digits s Hall). by destruct s.
Qed.

Lemma digit_count_nonneg s : 0 ≤ digit_count s.
Proof.
  induction s as [|c s IH]; [done|]. cbn [digit_count].
  destruct (digit c); lia.
Qed.

Lemma digit_count_all_digits s :
  all_digits s = true → digit_count s = Z.of_nat (String.length s).
Proof.
  induction s as [|c s IH]; [done|]. cbn [all_digits].
  intros [Hc Hs]%andb_true_iff. cbn [digit_count String.length].
  apply bool_decide_eq_true in Hc as [v Hc]. rewrite Hc, (IH Hs). lia.
Qed.

(** The value of a literal of [k] digits is below [10 ^ k]. *)
Lemma digits_bound s prev acc v :
  0 ≤ acc → digits prev acc s = Some v →
  acc * 10 ^ digit_count s ≤ v < (acc + 1) * 10 ^ digit_count s.
Proof.
  revert prev acc. induction s as [|c s IH]; intros prev acc Hacc Hv.
  - cbn in Hv. destruct prev; [|done]. injection Hv as <-.
    cbn [digit_count]. rewrite Z.pow_0_r. lia.
  - cbn [digits digit_count] in Hv |- *.
    pose proof (digit_count_nonneg s) as Hk.
    destruct (digit c) as [d|] eqn:Hc.
    + assert (0 ≤ d ≤ 9) as Hd.
      { unfold digit in Hc.
        destruct (48 <=? nat_of_ascii c)%nat eqn:H1; [|done].
        destruct (nat_of_ascii c <=? 57)%nat eqn:H2; [|done].
        apply Nat.leb_le in H1, H2. injection Hc as <-. lia. }
      apply IH in Hv; [|lia].
      rewrite Z.pow_add_r, Z.pow_1_r by lia.
      assert (0 < 10 ^ digit_count s) as Hpos by (apply Z.pow_pos_nonneg; lia).
      nia.
    + destruct (ascii_eqb c "_" && prev); [|done].
      rewrite Z.add_0_l. by apply (IH false).
Qed.

(** What [int] accepts is within the digits limit. *)
Lemma int_bound s v :
  int s = Some v → - 10 ^ int_max_str_digits < v < 10 ^ int_max_str_digits.
Proof.
  assert (∀ t w, literal t = Some w → 0 ≤ w < 10 ^ int_max_str_digits)
    as Hlit.
  { intros t w. unfold literal.
    destruct (Z.ltb_spec int_max_str_digits (digit_count t)) as [|Hle];
      [done|].
    intros Hw. apply digits_bound in Hw; [|done].
    pose proof (digit_count_nonneg t).
    assert (10 ^ digit_count t ≤ 10 ^ int_max_str_digits)
      by (apply Z.pow_le_mono_r; lia).
    lia. }
  unfold int.
  assert (0 < 10 ^ int_max_str_digits) as Hpos by (by apply Z.pow_pos_nonneg).
  destruct (int_strip s) as [|c t]; [intros ?%Hlit; lia|].
  destruct (decide (c = "-"%char)) as [->|Hminus].
  { destruct (literal t) as [w|] eqn:Hw; [|done].
    apply Hlit in Hw. intros [= <-]. lia. }
  destruct (decide (c = "+"%char)) as [->|Hplus]; [intros ?%Hlit; lia|].
  assert (match String c t with
          | String "-" s' => Z.opp <$> literal s'
          | String "+" s' => literal s'
          | s' => literal s'
          end = literal (String c t)) as ->.
  { destruct c as [[] [] [] [] [] [] [] []]; done. }
  intros ?%Hlit. lia.
Qed.

(** The decimal numeral of a number below [10 ^ k] has no more than [k]
    digits. *)
Lemma pretty_N_go_length x s k :
  0 ≤ k → Z.of_N x < 10 ^ k →
  Z.of_nat (String.length (pretty_N_go x s))
  ≤ Z.of_nat (String.length s) + k.
Proof.
  revert s k. induction (N.lt_wf_0 x) as [x _ IH]; intros s k Hk Hx.
  destruct (decide (x = 0)%N) as [->|Hx0].
  { rewrite pretty_N_go_0. lia. }
  rewrite pretty_N_go_step by lia.
  assert (1 ≤ k) as Hk1.
  { destruct (decide (k = 0)) as [->|]; [|lia].
    rewrite Z.pow_0_r in Hx. lia. }
  assert (Z.of_N (x `div` 10) < 10 ^ (k - 1)) as Hdiv.
  { rewrite N2Z.inj_div. change (Z.of_N 10) with 10.
    apply Z.div_lt_upper_bound; [lia|].
    rewrite <-Z.pow_succ_r by lia. by replace (Z.succ (k - 1)) with k by lia. }
  etransitivity.
  { apply (IH (x `div` 10)%N) with (k := k - 1); [|lia|done].
    apply N.div_lt; lia. }
  cbn [String.length]. lia.
Qed.

Lemma pretty_N_length x :
  Z.of_N x < 10 ^ int_max_str_digits →
  Z.of_nat (String.length (pretty x)) ≤ int_max_str_digits.
Proof.
  intros Hx. unfold pretty, pretty_N.
  destruct (decide (x = 0)%N) as [->|Hx0]; [done|].
  by apply (pretty_N_go_length x EmptyString int_max_str_digits).
Qed.

Lemma int_digits s :
  all_digits s = true → s ≠ EmptyString →
  Z.of_nat (String.length s) ≤ int_max_str_digits →
  int s = Some (digits_value s).
Proof.
  intros Hall Hne Hlen. unfold int.
  rewrite (int_strip_digits s Hall).
  destruct s as [|c s]; [done|].
  assert (match String c s with
          | String "-" s' => Z.opp <$> literal s'
          | String "+" s' => literal s'
          | s' => literal s'
          end = literal (String c s)) as ->.
  { cbn [all_digits] in Hall. apply andb_true_iff in Hall as [Hc _].
    apply bool_decide_eq_true in Hc as [v Hc].
    destruct c as [[] [] [] [] [] [] [] []]; try reflexivity;
      vm_compute in Hc; discriminate Hc. }
  unfold literal. rewrite (digit_count_all_digits _ Hall).
  rewrite (proj2 (Z.ltb_ge _ _) Hlen).
  rewrite digits_all_digits by done. f_equal; lia.
Qed.

(** [int(str(n)) == n] for a number within the digits limit: what the
    f-string writes for a port, [int] reads back. *)
Lemma int_str n :
  - 10 ^ int_max_str_digits < n < 10 ^ int_max_str_digits →
  int (str n) = Some n.
Proof.
  intros Hn. unfold str, pretty, pretty_Z. destruct n as [|p|p].
  - reflexivity.
  - destruct (pretty_N_digits (N.pos p)) as (Hall & Hval & Hne).
    change (pretty p) with (pretty (N.pos p)).
    rewrite int_digits; [f_equal; by rewrite Hval|done..|].
    apply pretty_N_length. change (Z.of_N (N.pos p)) with (Z.pos p). lia.
  - destruct (pretty_N_digits (N.pos p)) as (Hall & Hval & Hne).
    change (pretty p) with (pretty (N.pos p)).
    unfold int. change ("-" +:+ ?x) with (String "-" x).
    rewrite (int_strip_minus _ Hall).
    unfold literal. rewrite (digit_count_all_digits _ Hall).
    rewrite (proj2 (Z.ltb_ge _ _)).
    2: { apply pretty_N_length. change (Z.of_N (N.pos p)) with (Z.pos p).
         lia. }
    rewrite digits_all_digits by done. cbn [fmap option_fmap option_map].
    f_equal; lia.
Qed.

Lemma str_without c n :
  digit c = None → c ≠ "-"%char →
  contains (String c EmptyString) (str n) = false.
Proof.
  intros Hc Hdash. unfold str, pretty, pretty_Z. destruct n as [|p|p].
  - by apply all_digits_without.
  - destruct (pretty_N_digits (N.pos p)) as (Hall & _).
    by apply all_digits_without.
  - destruct (pretty_N_digits (N.pos p)) as (Hall & _).
    change (pretty p) with (pretty (N.pos p)).
    change ("-" +:+ ?x) with (String "-" x).
    cbn [contains startswith]. unfold ascii_eqb.
    rewrite (all_digits_without c _ Hc Hall), andb_true_r, orb_false_r.
    by destruct (Ascii.eqb_spec c "-").
Qed.

(** X20. The full peer string of an accepted record is a descriptor of the
    same peer: when the reported id holds no ['@'], [process_line] splits
    [full_peer] into that id, the host and the port as [str] wrote it,
    [int] reads the port back, and against the same network the full peer
    is accepted with the same height and the same dictionary. *)
Theorem full_peer_is_a_descriptor net line e ml d c :
  process_line net line e ml d = Ok (Some c) →
  contains "@" (node_id (conn_info c)) = false →
  split "@" (full_peer (conn_info c))
  = [node_id (conn_info c);
     ip (conn_info c) +:+ ":" +:+ str (port (conn_info c))]
  ∧ split ":" (ip (conn_info c) +:+ ":" +:+ str (port (conn_info c)))
    = [ip (conn_info c); str (port (conn_info c))]
  ∧ int (str (port (conn_info c))) = Some (port (conn_info c))
  ∧ process_line net (full_peer (conn_info c)) e ml d
    = Ok (Some (full_peer (conn_info c), conn_height c, conn_info c)).
Proof.
  intros Hc Hnid.
  apply process_line_accepted in Hc
    as (id & hostport & host & port_s & pt & lat & h & mon & nid
        & Hat & Hcolon & Hport & Hconn & Hlat & Hst & Hh & ->).
  cbn [conn_info conn_height record_of snd fst node_id ip port full_peer]
    in Hnid |- *.
  pose proof (split_parts_free "@" line) as Hfree_at.
  rewrite Hat in Hfree_at.
  apply Forall_cons in Hfree_at as [_ Hhp].
  apply Forall_cons in Hhp as [Hhp _].
  pose proof (split_parts_free ":" hostport) as Hfree_colon.
  rewrite Hcolon in Hfree_colon.
  apply Forall_cons in Hfree_colon as [Hip _].
  apply split_two in Hcolon. subst hostport.
  apply contains_append_false in Hhp as [Hip_at _].
  destruct (split_descriptor nid host (str pt) Hnid Hip_at Hip)
    as [Hat' Hcolon']; [by apply str_without..|].
  pose proof (int_str pt (int_bound port_s pt Hport)) as Hback.
  split; [done|]. split; [done|]. split; [done|].
  rewrite (process_line_probed _ _ _ _ _ _ _ _ _ _ _ Hat' Hcolon'
             Hback Hconn).
  assert ((if ml is Some m then float_le_int lat m else true) = true) as ->.
  { destruct ml as [m|]; [by apply Hlat|done]. }
  rewrite Hst. cbn. by rewrite (proj2 (Z.leb_le _ _) Hh).
Qed.

Lemma full_peer_is_a_descriptor_witness :
  split "@" "aa11@10.0.0.1:26656" = ["aa11"; "10.0.0.1:26656"]
  ∧ int (str 26656) = Some 26656.
Proof.
  destruct (full_peer_is_a_descriptor demo_net "n1@10.0.0.1:26656" 1000
              (Some 50) 5
              (record_of "n1@10.0.0.1:26656" "10.0.0.1" 26656 (41 # 2) 1003
                 "alice" "aa11") eq_refl eq_refl)
    as (Hat & _ & Hint & _).
  split; [|exact Hint].
  etransitivity; [|exact Hat]. vm_compute. reflexivity.
Defined.

Lemma any_space_append s t :
  any_space (s +:+ t) = any_space s || any_space t.
Proof.
  induction s as [|c s IH]; [done|].
  rewrite append_cons. cbn [any_space]. by rewrite IH, orb_assoc.
Qed.

Lemma any_space_join l :
  Forall (λ s, any_space s = false) l → any_space (join "," l) = false.
Proof.
  induction 1 as [|s l Hs Hl IH]; [done|].
  destruct l as [|s' l]; [done|].
  change (join "," (s :: s' :: l)) with (s +:+ "," +:+ join "," (s' :: l)).
  rewrite !any_space_append, Hs, IH. reflexivity.
Qed.

(** X21. The output file can be the peers file of a later run: when at
    least one record is selected, the lines hold neither a comma nor white
    space, and the ids go to a file of their own, [parse_file] reads from
    the text that was saved exactly the selected lines, in their order. *)
Theorem saved_selection_reads_back output_filename top_n m :
  top_connections (successful_connections m) top_n ≠ [] →
  Forall (λ s, contains "," s = false ∧ any_space s = false)
    (lines_of (top_connections (successful_connections m) top_n)) →
  ids_only_filename output_filename ≠ output_filename →
  ∃ m' n text,
    save_top_connections output_filename top_n m = (inl n, m')
    ∧ files m' !! output_filename = Some (Text text)
    ∧ ∀ w m2,
        read_file w output_filename = Ok text →
        parse_file w output_filename m2
        = (inl (lines_of (top_connections (successful_connections m) top_n)),
           m2).
Proof.
  intros Hne Hlines Hids.
  eexists _, _, _. split; [apply save_top_connections_run|]. cbn.
  split; [by rewrite lookup_insert_ne, lookup_insert_eq|].
  intros w m2 Hread. unfold parse_file. rewrite Hread.
  rewrite strip_no_space.
  2: { apply any_space_join. eapply Forall_impl; [exact Hlines|].
       by intros s [_ ?]. }
  rewrite split_join; [done| |].
  - unfold lines_of. by destruct (top_connections _ _).
  - eapply Forall_impl; [exact Hlines|]. by intros s [? _].
Qed.

Lemma saved_selection_reads_back_witness :
  ∃ m' n text,
    save_top_connections "top.txt" 2 demo_machine = (inl n, m')
    ∧ files m' !! "top.txt" = Some (Text text)
    ∧ split "," (strip text) = ["b@10.0.0.9:26656"; "a@10.0.0.9:26656"].
Proof.
  destruct (saved_selection_reads_back "top.txt" 2 demo_machine)
    as (m' & n & text & Hrun & Hfile & Hread).
  - vm_compute. discriminate.
  - vm_compute. by repeat constructor.
  - vm_compute. discriminate.
  - exists m', n, text. split; [exact Hrun|]. split; [exact Hfile|].
    pose proof (Hread {| peer_net := peer_net demo_world;
                         rpc_status := rpc_status demo_world;
                         rpc_net_info := rpc_net_info demo_world;
                         read_file := λ _, Ok text |} (boot ∅) eq_refl)
      as Hparse.
    unfold parse_file in Hparse. cbn in Hparse. by injection Hparse.
Defined.

(** ** The schedule and the ranking *)

Lemma NoDup_fmap_eq {A B} (f : A → B) (l : list A) x y :
  NoDup (f <$> l) → x ∈ l → y ∈ l → f x = f y → x = y.
Proof.
  induction l as [|z l IH]; [by intros _ ?%elem_of_nil|].
  rewrite fmap_cons, NoDup_cons.
  intros [Hz Hl] [->|Hx]%elem_of_cons [->|Hy]%elem_of_cons Hf; [done|..].
  - destruct Hz. rewrite Hf. by apply list_elem_of_fmap_2.
  - destruct Hz. rewrite <-Hf. by apply list_elem_of_fmap_2.
  - by apply IH.
Qed.

Lemma sort_desc_heights_unique (l1 l2 : list connection) :
  l1 ≡ₚ l2 →
  conn_height <$> sort_desc conn_height l1
  = conn_height <$> sort_desc conn_height l2.
Proof.
  intros Hperm.
  apply (StronglySorted_unique_strong (λ x y : Z, y ≤ x)).
  - intros x1 x2 _ _ ? ?. lia.
  - apply StronglySorted_fmap with (R1 := desc conn_height); [done|].
    apply sort_desc_sorted.
  - apply StronglySorted_fmap with (R1 := desc conn_height); [done|].
    apply sort_desc_sorted.
  - by rewrite !sort_desc_perm, Hperm.
Qed.

Lemma sort_desc_unique_heights (l1 l2 : list connection) :
  l1 ≡ₚ l2 → NoDup (conn_height <$> l1) →
  sort_desc conn_height l1 = sort_desc conn_height l2.
Proof.
  intros Hperm Hnd.
  apply (StronglySorted_unique_strong (desc conn_height));
    [|apply sort_desc_sorted..|by rewrite !sort_desc_perm, Hperm].
  intros x1 x2 Hx1 Hx2 H12 H21. unfold desc in *.
  rewrite sort_desc_perm in Hx1. rewrite sort_desc_perm, <-Hperm in Hx2.
  apply (NoDup_fmap_eq conn_height l1); [done..|lia].
Qed.

Lemma slice_to_perm_fmap {A B} (f : A → B) (l1 l2 : list A) n :
  length l1 = length l2 → f <$> l1 = f <$> l2 →
  f <$> slice_to l1 n = f <$> slice_to l2 n.
Proof.
  intros Hlen Hf. unfold slice_to. rewrite Hlen.
  destruct (n <? 0); by rewrite !fmap_take, Hf.
Qed.

(** X22. The ranking does not depend on the order in which the tasks
    complete, up to ties: two schedules of the same lines give the same
    counts and the same heights, position by position, in the ranked list
    and in the selection.  When no two accepted records have the same
    height the ranked lists are equal, and so are the files written when
    the metadata is not asked for. *)
Theorem ranking_is_schedule_independent w order1 order2 lines e ml d
    output_filename top_n json_format m :
  order1 ≡ₚ seq 0 (length lines) →
  order2 ≡ₚ seq 0 (length lines) →
  ∃ m1 m2 counts,
    evaluate_and_save w order1 lines e ml d output_filename top_n json_format m
    = (inl counts, m1)
    ∧ evaluate_and_save w order2 lines e ml d output_filename top_n
        json_format m
      = (inl counts, m2)
    ∧ conn_height <$> successful_connections m1
      = conn_height <$> successful_connections m2
    ∧ conn_height <$>
        top_connections
          (collected (submit_all (peer_net w) lines e ml d) order1) top_n
      = conn_height <$>
          top_connections
            (collected (submit_all (peer_net w) lines e ml d) order2) top_n
    ∧ (NoDup (conn_height <$> accepted_records (peer_net w) lines e ml d) →
       successful_connections m1 = successful_connections m2
       ∧ (json_format = false → files m1 = files m2)).
Proof.
  intros Hp1 Hp2.
  set (futures := submit_all (peer_net w) lines e ml d).
  assert (collected futures order1 ≡ₚ collected futures order2) as Hperm.
  { apply collected_perm. by rewrite Hp1, Hp2. }
  assert (collected futures order1
          ≡ₚ accepted_records (peer_net w) lines e ml d) as Hacc.
  { by apply collected_perm. }
  destruct (evaluate_and_save_run w order1 lines e ml d output_filename top_n
              json_format m) as [lg1 Hrun1].
  destruct (evaluate_and_save_run w order2 lines e ml d output_filename top_n
              json_format m) as [lg2 Hrun2].
  fold futures in Hrun1, Hrun2.
  pose proof (sort_desc_heights_unique _ _ Hperm) as Hheights.
  assert (conn_height <$> top_connections (collected futures order1) top_n
          = conn_height <$> top_connections (collected futures order2) top_n)
    as Htop.
  { unfold top_connections. apply slice_to_perm_fmap; [|done].
    by rewrite !sort_desc_length, Hperm. }
  eexists _, _, _. split; [exact Hrun1|]. split.
  { assert (length (collected futures order2)
            = length (collected futures order1)) as Hmatched
      by (by rewrite Hperm).
    assert (length (top_connections (collected futures order2) top_n)
            = length (top_connections (collected futures order1) top_n))
      as Hsaved
      by (by rewrite <-(length_fmap conn_height), <-Htop, length_fmap).
    rewrite Hrun2, Hmatched, Hsaved. reflexivity. }
  cbn [successful_connections files].
  split; [done|]. split; [done|].
  intros Hnd. rewrite <-Hacc in Hnd.
  pose proof (sort_desc_unique_heights _ _ Hperm Hnd) as Hsort.
  split; [done|]. intros ->.
  unfold top_connections. by rewrite Hsort.
Qed.

Lemma ranking_is_schedule_independent_witness :
  ∃ m1 m2 counts,
    evaluate_and_save demo_world [2; 0; 1]%nat demo_lines 1000 None 20
      "top.txt" 1 false (boot ∅) = (inl counts, m1)
    ∧ evaluate_and_save demo_world [0; 1; 2]%nat demo_lines 1000 None 20
        "top.txt" 1 false (boot ∅) = (inl counts, m2)
    ∧ conn_height <$> successful_connections m1
      = conn_height <$> successful_connections m2.
Proof.
  assert ([2; 0; 1]%nat ≡ₚ seq 0 (length demo_lines)) as Hperm.
  { cbn. transitivity [0; 2; 1]%nat; [apply perm_swap|].
    apply perm_skip, perm_swap. }
  destruct (ranking_is_schedule_independent demo_world [2; 0; 1]%nat
              [0; 1; 2]%nat demo_lines 1000 None 20 "top.txt" 1 false (boot ∅)
              Hperm (Permutation_refl _))
    as (m1 & m2 & counts & Hrun1 & Hrun2 & Hheights & _).
  by exists m1, m2, counts.
Defined.

(** X23. Every record of the selection has its dictionary in the
    metadata: the metadata file lists the dictionaries of all the accepted
    records, of which the selection is a part. *)
Theorem selection_is_within_the_metadata w order lines e ml d output_filename
    top_n m :
  ∃ m' counts doc,
    evaluate_and_save w order lines e ml d output_filename top_n true m
    = (inl counts, m')
    ∧ files m' !! moniker_filename output_filename = Some (Json doc)
    ∧ (counts.2 ≤ counts.1)%nat
    ∧ ∀ c,
        c ∈ top_connections
              (collected (submit_all (peer_net w) lines e ml d) order) top_n →
        conn_info c ∈ doc.
Proof.
  destruct (evaluate_and_save_run w order lines e ml d output_filename top_n
              true m) as [lg Hrun].
  eexists _, _, _. split; [exact Hrun|]. cbn.
  split; [apply lookup_insert_eq|].
  destruct (slice_to_take
              (sort_desc conn_height
                 (collected (submit_all (peer_net w) lines e ml d) order))
              top_n) as (k & Hk & _).
  unfold top_connections. rewrite Hk. split.
  - rewrite length_take, sort_desc_length. lia.
  - intros c Hc. apply list_elem_of_fmap_2.
    apply subseteq_take in Hc. by rewrite sort_desc_perm in Hc.
Qed.
